(** * traefik-rybbit-feeder: a shallow embedding and its properties

    The development follows the Go sources [umami.go], [umami_worker.go]
    and the response-writer wrapper.  Go values are modelled as follows:

    - [int] and [time.Duration] are 64-bit integers, written as [Z] with
      the wrap-around of the arithmetic spelled out ([wrap64]);
    - [float64] is the IEEE binary64 format of [SpecFloat];
    - [map[string]string] is a [gmap string string];
    - the buffered channel [queue] is its buffer, its capacity and the
      flag telling whether a receiver is parked on it;
    - the logger writing to standard output, the network and the timers
      are the fields of a [World] that every effectful function threads.

    Time stamps of log lines are left out: no property below reads them. *)

From Stdlib Require Import ZArith Ascii String List Bool Lia.
From Stdlib Require Import SpecFloat.
From stdpp Require Import gmap strings pretty.

Open Scope string_scope.
Open Scope list_scope.
Open Scope Z_scope.

Set Warnings "-register-all".

(** ** Machine integers and durations *)

Module Int64.

Definition modulus : Z := 2 ^ 64.
Definition half : Z := 2 ^ 63.

(** Two's complement wrap-around of a 64-bit signed result. *)
Definition wrap64 (z : Z) : Z := (z + half) mod modulus - half.

Definition mul (a b : Z) : Z := wrap64 (a * b).
Definition add (a b : Z) : Z := wrap64 (a + b).

End Int64.

Module Duration.

(** [time.Duration] counts nanoseconds in an [int64]. *)
Definition Second : Z := 1000000000.
Definition Hour : Z := 3600 * Second.

Definition seconds (n : Z) : Z := n * Second.

End Duration.

(** ** Allocation limits of the runtime *)

Module Runtime.

(** The constants of the Go runtime on the 64-bit platforms with 48 bits
    of heap address (linux/amd64, linux/arm64): the largest allocation,
    the size of a pointer and the size of the header of a channel.  An
    allocation within the limits is taken to succeed. *)
Definition maxAlloc : Z := 2 ^ 48.
Definition ptrSize : Z := 8.
Definition hchanSize : Z := 96.

(** [make(chan *T, n)] panics ("makechan: size out of range") unless
    this holds. *)
Definition makechan_ok (n : Z) : bool :=
  (0 <=? n) && (ptrSize * n <=? maxAlloc - hchanSize).

(** [make([]*T, 0, n)] panics ("makeslice: cap out of range") unless
    this holds. *)
Definition makeslice_ok (n : Z) : bool :=
  (0 <=? n) && (ptrSize * n <=? maxAlloc).

Definition makeslice_panic : string :=
  "runtime error: makeslice: cap out of range".

End Runtime.

(** ** float64, as far as [retryConnection] uses it *)

Module Float64.

Definition prec : Z := 53.
Definition emax : Z := 1024.

(** The conversion [float64(n)] of an integer. *)
Definition of_int (n : Z) : spec_float := binary_normalize prec emax n 0 false.

(** The conversion [int64(f)] of a finite float: truncation towards zero. *)
Definition to_int (f : spec_float) : Z :=
  match f with
  | S754_finite s m e =>
      let v := if 0 <=? e then Z.pos m * 2 ^ e else Z.pos m / 2 ^ (- e) in
      if s then - v else v
  | _ => 0
  end.

Definition mul (x y : spec_float) : spec_float := SFmul prec emax x y.

(** [math.Pow(2, y)] at an integral [y]: the power of two is a binary64
    number, and Go returns it exactly. *)
Definition pow2 (y : spec_float) : spec_float :=
  SFldexp prec emax (of_int 1) (to_int y).

End Float64.

(** ** Results of fallible calls *)

Inductive result (A : Type) : Type :=
  | Ok (a : A)
  | Err (msg : string).
Arguments Ok {A} a.
Arguments Err {A} msg.

(** ** Bytes of strings *)

Definition byte_of (c : ascii) : Z := Z.of_nat (nat_of_ascii c).

Definition ascii_of (b : Z) : ascii := ascii_of_nat (Z.to_nat b).

Definition is_lower (c : ascii) : bool :=
  (97 <=? byte_of c) && (byte_of c <=? 122).

Definition is_upper (c : ascii) : bool :=
  (65 <=? byte_of c) && (byte_of c <=? 90).

Definition is_digit (c : ascii) : bool :=
  (48 <=? byte_of c) && (byte_of c <=? 57).

Fixpoint char_in (c : ascii) (s : string) : bool :=
  match s with
  | EmptyString => false
  | String d rest => Ascii.eqb c d || char_in c rest
  end.

Fixpoint all_bytes (p : ascii -> bool) (s : string) : bool :=
  match s with
  | EmptyString => true
  | String c rest => p c && all_bytes p rest
  end.

(** ** Strings in JSON *)

(** What the first byte of a UTF-8 sequence announces: the length of
    the sequence and the range of its second byte. *)
Inductive Lead : Type :=
  | LeadAscii
  | LeadInvalid
  | Lead2
  | Lead3 (lo hi : Z)
  | Lead4 (lo hi : Z).

Definition lead (c : ascii) : Lead :=
  let b := byte_of c in
  if b <? 128 then LeadAscii
  else if b <? 194 then LeadInvalid
  else if b <? 224 then Lead2
  else if b =? 224 then Lead3 160 191
  else if b =? 237 then Lead3 128 159
  else if b <? 240 then Lead3 128 191
  else if b =? 240 then Lead4 144 191
  else if b <? 244 then Lead4 128 191
  else if b =? 244 then Lead4 128 143
  else LeadInvalid.

Definition between (lo hi : Z) (c : ascii) : bool :=
  (lo <=? byte_of c) && (byte_of c <=? hi).

Definition continuation (c : ascii) : bool := between 128 191 c.

(** U+FFFD in UTF-8. *)
Definition replacement : string :=
  String (ascii_of 239) (String (ascii_of 191) (String (ascii_of 189) "")).

(** The string that [encoding/json] writes for a Go string, as a reader
    of the document gets it back: a byte at which no UTF-8 sequence
    starts, as [utf8.DecodeRuneInString] decides it, is replaced by
    U+FFFD.  The escapes of the text of the document do not change the
    string that is read back. *)
Fixpoint valid_utf8 (s : string) : string :=
  match s with
  | EmptyString => EmptyString
  | String c0 rest =>
      let bad := replacement +:+ valid_utf8 rest in
      match lead c0 with
      | LeadAscii => String c0 (valid_utf8 rest)
      | LeadInvalid => bad
      | Lead2 =>
          match rest with
          | String c1 r1 =>
              if continuation c1
              then String c0 (String c1 (valid_utf8 r1))
              else bad
          | _ => bad
          end
      | Lead3 lo hi =>
          match rest with
          | String c1 (String c2 r2) =>
              if between lo hi c1 && continuation c2
              then String c0 (String c1 (String c2 (valid_utf8 r2)))
              else bad
          | _ => bad
          end
      | Lead4 lo hi =>
          match rest with
          | String c1 (String c2 (String c3 r3)) =>
              if between lo hi c1 && continuation c2 && continuation c3
              then String c0
                     (String c1 (String c2 (String c3 (valid_utf8 r3))))
              else bad
          | _ => bad
          end
      end
  end.

(** ** The data model of [umami_worker.go] *)

Record RybbitEvent : Type := {
  APIKey : string;
  SiteID : string;
  Type_ : string;
  Pathname : string;
  Hostname : string;
  IP : string;
  UserAgent : string;
  Language : string;
  EventName : string;
  Referrer : string;
  Properties : string
}.

Record SendBody : Type := {
  Payload : RybbitEvent;
  SendType : string
}.

(** The values this package passes where [sendRequest] takes a body of
    type [any]. *)
Inductive GoValue : Type :=
  | VNil
  | VEvent (e : RybbitEvent)
  | VSendBody (b : SendBody).

(** JSON documents, as a reader gets them back, and [json.Marshal] on
    the two structs, following their field tags: fields in declaration
    order, [omitempty] dropping an empty string. *)
Inductive json : Type :=
  | JNull
  | JString (s : string)
  | JObject (fields : list (string * json)).

(** The JSON string for a Go string. *)
Definition json_string (s : string) : json := JString (valid_utf8 s).

Definition field (key value : string) : list (string * json) :=
  [(key, json_string value)].

Definition omitempty (key value : string) : list (string * json) :=
  if String.eqb value "" then [] else [(key, json_string value)].

Definition marshalRybbitEvent (e : RybbitEvent) : json :=
  JObject (field "api_key" (APIKey e)
        ++ field "site_id" (SiteID e)
        ++ field "type" (Type_ e)
        ++ field "pathname" (Pathname e)
        ++ omitempty "hostname" (Hostname e)
        ++ omitempty "ip_address" (IP e)
        ++ omitempty "user_agent" (UserAgent e)
        ++ omitempty "language" (Language e)
        ++ omitempty "event_name" (EventName e)
        ++ omitempty "referrer" (Referrer e)
        ++ omitempty "properties" (Properties e)).

Definition marshalSendBody (b : SendBody) : json :=
  JObject [("payload", marshalRybbitEvent (Payload b));
           ("type", json_string (SendType b))].

Definition marshal (v : GoValue) : json :=
  match v with
  | VNil => JNull
  | VEvent e => marshalRybbitEvent e
  | VSendBody b => marshalSendBody b
  end.

(** ** The world outside the plugin *)

Inductive Level : Type := ERR | DBG.

Record LogLine : Type := {
  level : Level;
  middlewareName : string;
  message : string
}.

(** One call of [sendRequest(ctx, url, body, nil)]. *)
Record Call : Type := {
  call_url : string;
  call_body : GoValue
}.

(** What a call of [sendRequest] does: it returns a response, returns an
    error, or panics. *)
Inductive Outcome : Type :=
  | Responded (status body : string)
  | Failed (msg : string)
  | Panicked (value : string).

(** The collector and the network between: the outcome of a call may
    depend on how many calls were made before it. *)
Definition Net : Type := nat -> Call -> Outcome.

Record World : Type := {
  stdout : list LogLine;
  requests : list Call;
  afters : list Z;
  handed : list RybbitEvent
}.

Definition world0 : World :=
  {| stdout := []; requests := []; afters := []; handed := [] |}.

Definition print (l : LogLine) (w : World) : World :=
  {| stdout := stdout w ++ [l]; requests := requests w;
     afters := afters w; handed := handed w |}.

Definition record_call (c : Call) (w : World) : World :=
  {| stdout := stdout w; requests := requests w ++ [c];
     afters := afters w; handed := handed w |}.

Definition record_after (d : Z) (w : World) : World :=
  {| stdout := stdout w; requests := requests w;
     afters := afters w ++ [d]; handed := handed w |}.

Definition record_handed (e : RybbitEvent) (w : World) : World :=
  {| stdout := stdout w; requests := requests w;
     afters := afters w; handed := handed w ++ [e] |}.

(** ** Channels *)

(** A buffered channel of events.  [recvq] tells that a goroutine is
    parked in a receive on the channel, which happens only while the
    buffer is empty. *)
Record Chan : Type := {
  buf : list RybbitEvent;
  cap : Z;
  recvq : bool
}.

Definition chan_len (c : Chan) : Z := Z.of_nat (length (buf c)).

(** [make(chan *RybbitEvent, n)]: [None] is its panic, on a negative
    [n] and on one beyond what the runtime can allocate. *)
Definition make_chan (n : Z) : option Chan :=
  if Runtime.makechan_ok n
  then Some {| buf := []; cap := n; recvq := false |}
  else None.

Inductive TrySend : Type :=
  | SentDirect (c : Chan)
  | SentBuffered (c : Chan)
  | NotSent.

(** A send in a [select] with a [default] case: the value goes to a
    parked receiver if there is one, else into a free slot of the
    buffer, else the send is not performed. *)
Definition chan_trysend (c : Chan) (e : RybbitEvent) : TrySend :=
  if recvq c then
    SentDirect {| buf := buf c; cap := cap c; recvq := false |}
  else if chan_len c <? cap c then
    SentBuffered {| buf := buf c ++ [e]; cap := cap c; recvq := false |}
  else NotSent.

(** A receive that finds a buffered event. *)
Definition chan_recv (c : Chan) : option (RybbitEvent * Chan) :=
  match buf c with
  | [] => None
  | e :: rest => Some (e, {| buf := rest; cap := cap c; recvq := recvq c |})
  end.

(** A goroutine parks on the empty channel. *)
Definition chan_park (c : Chan) : Chan :=
  match buf c with
  | [] => {| buf := []; cap := cap c; recvq := true |}
  | _ => c
  end.

(** ** Header names *)

(** The bytes of a header name: the token characters of HTTP. *)
Definition validHeaderFieldByte (c : ascii) : bool :=
  is_lower c || is_upper c || is_digit c || char_in c "!#$%&'*+-.^_`|~".

(** The loop of [textproto.CanonicalMIMEHeaderKey]: upper case for the
    first letter and for a letter after a dash, lower case for the
    other letters. *)
Fixpoint canonical_from (upper : bool) (s : string) : string :=
  match s with
  | EmptyString => EmptyString
  | String c rest =>
      let c' :=
        if upper && is_lower c then ascii_of (byte_of c - 32)
        else if negb upper && is_upper c then ascii_of (byte_of c + 32)
        else c in
      String c' (canonical_from (Ascii.eqb c' "-") rest)
  end.

(** [textproto.CanonicalMIMEHeaderKey]: a key with a byte that is no
    token character is returned as it is. *)
Definition CanonicalMIMEHeaderKey (s : string) : string :=
  if all_bytes validHeaderFieldByte s then canonical_from true s else s.

(** ** Requests *)

(** The parts of [http.Request] the plugin reads.  [Header] holds the
    first value of each header under its canonical name, as the server
    stores the headers of a request. *)
Record Request : Type := {
  Host : string;
  RemoteAddr : string;
  Header : gmap string string;
  URL_Path : string;
  URL_String : string
}.

(** [req.Header.Get(key)]: the value under the canonical form of the
    key, the empty string when the header is absent. *)
Definition Header_Get (req : Request) (key : string) : string :=
  default "" (Header req !! CanonicalMIMEHeaderKey key).

Definition Request_UserAgent (req : Request) : string :=
  Header_Get req "User-Agent".

Definition Request_Referer (req : Request) : string :=
  Header_Get req "Referer".

(** ** The configuration *)

Record Config : Type := {
  Disabled : bool;
  Debug : bool;
  QueueSize : Z;
  BatchSize : Z;
  BatchMaxWait : Z;
  ConfigHost : string;
  ConfigAPIKey : string;
  Websites : gmap string string;
  TrackErrors : bool;
  TrackAllResources : bool;
  TrackExtensions : list string;
  IgnoreUserAgents : list string;
  IgnoreURLs : list string;
  IgnoreIPs : list string;
  HeaderIp : string
}.

Definition CreateConfig : Config :=
  {| Disabled := false;
     Debug := false;
     QueueSize := 1000;
     BatchSize := 20;
     BatchMaxWait := 5 * Duration.Second;
     TrackErrors := false;
     ConfigHost := "";
     ConfigAPIKey := "";
     Websites := ∅;
     TrackAllResources := false;
     TrackExtensions := [];
     IgnoreUserAgents := [];
     IgnoreURLs := [];
     IgnoreIPs := [];
     HeaderIp := "X-Real-Ip" |}.

(** ** Library and helper interfaces

    The packages [net/netip] and [regexp] of the Go library, and the
    helpers of this package that live outside the files modelled here,
    enter as interfaces. *)

Class NetIP : Type := {
  Addr : Type;
  Prefix : Type;
  ParseAddr : string -> result Addr;
  ParsePrefix : string -> result Prefix;
  Prefix_IsValid : Prefix -> bool;
  Prefix_Contains : Prefix -> Addr -> bool;
  Addr_String : Addr -> string
}.

Class Regex : Type := {
  Regexp : Type;
  regexp_Compile : string -> result Regexp;
  Regexp_MatchString : Regexp -> string -> bool
}.

Class Helpers : Type := {
  parseDomainFromHost : string -> string;
  extractRemoteIP : Request -> string;
  parseAcceptLanguage : string -> string
}.

(** Decimal rendering of an integer, for the [%d] verbs of the log
    messages. *)
Definition itoa (n : Z) : string :=
  match n with
  | Z0 => "0"
  | Zpos p => pretty (N.pos p)
  | Zneg p => "-" +:+ pretty (N.pos p)
  end.

(** Rendering of a duration for the [%v] verb, as [Duration.String]
    prints a whole number of seconds: ["1h0m0s"], ["2m0s"], ["30s"].
    The plugin prints no other duration; one that is negative or has a
    fraction of a second is shown in nanoseconds. *)
Definition show_duration (d : Z) : string :=
  if (0 <=? d) && (d mod Duration.Second =? 0) then
    let s := d / Duration.Second in
    let hours := s / 3600 in
    let minutes := (s / 60) mod 60 in
    let seconds := s mod 60 in
    if 0 <? hours then
      itoa hours +:+ "h" +:+ itoa minutes +:+ "m" +:+ itoa seconds +:+ "s"
    else if 0 <? minutes then
      itoa minutes +:+ "m" +:+ itoa seconds +:+ "s"
    else itoa seconds +:+ "s"
  else itoa d +:+ "ns".

Section Plugin.

Context `{NetIP} `{Regex} `{Helpers}.

(** ** The plugin *)

(** The fields of [UmamiFeeder] that the code reads or writes; [next],
    the mutex and the logger handle are left out ([New] always installs a
    logger, whose output is [stdout] of the world). *)
Record UmamiFeeder : Type := {
  name : string;
  isDebug : bool;
  isDisabled : bool;
  queue : Chan;
  batchSize : Z;
  batchMaxWait : Z;
  host : string;
  apiKey : string;
  websites : gmap string string;
  createNewWebsites : bool;
  trackErrors : bool;
  trackAllResources : bool;
  trackExtensions : list string;
  ignoreUserAgents : list string;
  ignoreRegexps : list Regexp;
  ignorePrefixes : list Prefix;
  headerIp : string
}.

Definition set_isDisabled (b : bool) (h : UmamiFeeder) : UmamiFeeder :=
  {| name := name h; isDebug := isDebug h; isDisabled := b;
     queue := queue h; batchSize := batchSize h;
     batchMaxWait := batchMaxWait h; host := host h; apiKey := apiKey h;
     websites := websites h; createNewWebsites := createNewWebsites h;
     trackErrors := trackErrors h;
     trackAllResources := trackAllResources h;
     trackExtensions := trackExtensions h;
     ignoreUserAgents := ignoreUserAgents h;
     ignoreRegexps := ignoreRegexps h;
     ignorePrefixes := ignorePrefixes h; headerIp := headerIp h |}.

Definition set_queue (c : Chan) (h : UmamiFeeder) : UmamiFeeder :=
  {| name := name h; isDebug := isDebug h; isDisabled := isDisabled h;
     queue := c; batchSize := batchSize h;
     batchMaxWait := batchMaxWait h; host := host h; apiKey := apiKey h;
     websites := websites h; createNewWebsites := createNewWebsites h;
     trackErrors := trackErrors h;
     trackAllResources := trackAllResources h;
     trackExtensions := trackExtensions h;
     ignoreUserAgents := ignoreUserAgents h;
     ignoreRegexps := ignoreRegexps h;
     ignorePrefixes := ignorePrefixes h; headerIp := headerIp h |}.

Definition set_ignoreRegexps (rs : list Regexp) (h : UmamiFeeder)
  : UmamiFeeder :=
  {| name := name h; isDebug := isDebug h; isDisabled := isDisabled h;
     queue := queue h; batchSize := batchSize h;
     batchMaxWait := batchMaxWait h; host := host h; apiKey := apiKey h;
     websites := websites h; createNewWebsites := createNewWebsites h;
     trackErrors := trackErrors h;
     trackAllResources := trackAllResources h;
     trackExtensions := trackExtensions h;
     ignoreUserAgents := ignoreUserAgents h;
     ignoreRegexps := rs;
     ignorePrefixes := ignorePrefixes h; headerIp := headerIp h |}.

Definition set_ignorePrefixes (ps : list Prefix) (h : UmamiFeeder)
  : UmamiFeeder :=
  {| name := name h; isDebug := isDebug h; isDisabled := isDisabled h;
     queue := queue h; batchSize := batchSize h;
     batchMaxWait := batchMaxWait h; host := host h; apiKey := apiKey h;
     websites := websites h; createNewWebsites := createNewWebsites h;
     trackErrors := trackErrors h;
     trackAllResources := trackAllResources h;
     trackExtensions := trackExtensions h;
     ignoreUserAgents := ignoreUserAgents h;
     ignoreRegexps := ignoreRegexps h;
     ignorePrefixes := ps; headerIp := headerIp h |}.

(** *** Diagnostics *)

Definition error (h : UmamiFeeder) (msg : string) (w : World) : World :=
  print {| level := ERR; middlewareName := name h; message := msg |} w.

Definition debug (h : UmamiFeeder) (msg : string) (w : World) : World :=
  if isDebug h
  then print {| level := DBG; middlewareName := name h; message := msg |} w
  else w.

(** *** The retry delay *)

Definition maxRetryInterval : Z := Duration.Hour.

(** The value of [currentDelay] computed at the head of the loop of
    [retryConnection]. *)
Definition currentDelay (retryAttempt : Z) : Z :=
  if retryAttempt =? 0 then 0
  else if retryAttempt <? 8 then
    Int64.mul
      (Float64.to_int
         (Float64.mul (Float64.of_int 15)
                      (Float64.pow2 (Float64.of_int retryAttempt))))
      Duration.Second
  else maxRetryInterval.

(** *** Calls out of the plugin *)

(** A Go [error] value: [None] is [nil]. *)
Definition GoError : Type := option string.

(** A call returns, or panics with a value. *)
Inductive Go (A : Type) : Type :=
  | Return (a : A)
  | Raise (value : string).
Arguments Return {A} a.
Arguments Raise {A} value.

(** The HTTP request that a call of [sendRequest] puts on the wire. *)
Record HTTPRequest : Type := {
  http_method : string;
  http_url : string;
  http_body : option json
}.

(** Modelled from the spec: [sendRequest] is defined outside the files
    modelled here.  The spec asks of the transport to "send this JSON
    payload to this URL and get a status/response back or an error":
    the body it is given is sent as its JSON encoding in a POST, and a
    call without a body is the GET of the health probe. *)
Definition http_request (c : Call) : HTTPRequest :=
  match call_body c with
  | VNil =>
      {| http_method := "GET"; http_url := call_url c; http_body := None |}
  | v =>
      {| http_method := "POST"; http_url := call_url c;
         http_body := Some (marshal v) |}
  end.

(** Modelled from the spec: [sendRequest], as the plugin sees it.  The
    call is recorded, and the world decides whether it yields a response,
    an error or a panic. *)
Definition sendRequest (net : Net) (url : string) (body : GoValue)
    (w : World) : Outcome * World :=
  let c := {| call_url := url; call_body := body |} in
  (net (length (requests w)) c, record_call c w).

(** *** connect *)

Definition connect (net : Net) (h : UmamiFeeder) (w : World)
  : Go GoError * World :=
  if String.eqb (host h) "" then
    (Return (Some "`host` is not set"), w)
  else if String.eqb (apiKey h) "" then
    (Return (Some "`apiKey` should be set"), w)
  else if Nat.eqb (size (websites h)) 0 then
    (Return (Some "`websites` should not be empty"), w)
  else
    match sendRequest net (host h +:+ "/health") VNil w with
    | (Failed err, w') =>
        (Return (Some ("Failed to get health for rybbit: " +:+ err)), w')
    | (Panicked v, w') => (Raise v, w')
    | (Responded _ _, w') => (Return None, w')
    end.

(** *** verifyConfig *)

(** The loop over [config.IgnoreIPs]. *)
Fixpoint verifyIgnoreIPs (ips : list string) (h : UmamiFeeder)
  : GoError * UmamiFeeder :=
  match ips with
  | [] => (None, h)
  | ignoreIp :: rest =>
      let parsed :=
        match ParsePrefix ignoreIp with
        | Ok network => Ok network
        | Err _ => ParsePrefix (ignoreIp +:+ "/32")
        end in
      match parsed with
      | Err err =>
          (Some ("invalid ignoreIp given " +:+ ignoreIp +:+ ": " +:+ err), h)
      | Ok network =>
          if negb (Prefix_IsValid network) then
            (Some ("invalid ignoreIp given " +:+ ignoreIp +:+ ": %!w(<nil>)"),
             h)
          else
            verifyIgnoreIPs rest
              (set_ignorePrefixes (ignorePrefixes h ++ [network]) h)
      end
  end.

(** The loop over [config.IgnoreURLs]. *)
Fixpoint verifyIgnoreURLs (urls : list string) (h : UmamiFeeder)
  : GoError * UmamiFeeder :=
  match urls with
  | [] => (None, h)
  | location :: rest =>
      match regexp_Compile location with
      | Err err =>
          (Some ("failed to compile ignoreURL " +:+ location +:+ ": "
                 +:+ err), h)
      | Ok r =>
          verifyIgnoreURLs rest
            (set_ignoreRegexps (ignoreRegexps h ++ [r]) h)
      end
  end.

Definition verifyConfig (config : Config) (h : UmamiFeeder)
  : GoError * UmamiFeeder :=
  match verifyIgnoreIPs (IgnoreIPs config) h with
  | (Some err, h') => (Some err, h')
  | (None, h') => verifyIgnoreURLs (IgnoreURLs config) h'
  end.

(** *** retryConnection *)

(** Which case of the [select] of [retryConnection] is taken. *)
Inductive RetrySelect : Type :=
  | AfterDelay
  | RetryCtxDone.

(** How the goroutine of [retryConnection] ends. *)
Inductive RetryExit : Type :=
  | WorkerStarted
  | ConfigurationError
  | RetryCancelled
  | RetryCrashed (value : string).

Inductive RetryResult : Type :=
  | RetryExited (how : RetryExit) (h : UmamiFeeder) (w : World)
  | RetryWaiting (retryAttempt : Z) (h : UmamiFeeder) (w : World).

(** The loop of [retryConnection], run on the cases that its [select]
    takes; when they are used up the goroutine is waiting in [select].
    Every evaluation of [time.After(currentDelay)] is recorded in
    [afters]. *)
Fixpoint retryLoop (net : Net) (config : Config) (sel : list RetrySelect)
    (retryAttempt : Z) (h : UmamiFeeder) (w : World) : RetryResult :=
  let delay := currentDelay retryAttempt in
  let w :=
    if 0 <? retryAttempt then
      debug h ("Next connection attempt in " +:+ show_duration delay
               +:+ " (attempt #" +:+ itoa (Int64.add retryAttempt 1)
               +:+ ").") w
    else w in
  let w := record_after delay w in
  match sel with
  | [] => RetryWaiting retryAttempt h w
  | RetryCtxDone :: _ =>
      RetryExited RetryCancelled h
        (debug h
           "Context cancelled during retryConnection, stopping connection retries."
           w)
  | AfterDelay :: rest =>
      let retryAttempt := Int64.add retryAttempt 1 in
      let w :=
        debug h ("Attempting to connect to Rybbit (attempt #"
                 +:+ itoa retryAttempt +:+ ")...") w in
      match connect net h w with
      | (Raise v, w) => RetryExited (RetryCrashed v) h w
      | (Return None, w) =>
          let w :=
            debug h
              "Successfully connected to Rybbit. Verifying configuration..."
              w in
          match verifyConfig config h with
          | (None, h) =>
              let w :=
                debug h
                  "Configuration verified. Enabling plugin and starting worker."
                  w in
              RetryExited WorkerStarted (set_isDisabled false h) w
          | (Some err, h) =>
              let w :=
                error h ("configuration error, the plugin is disabled: "
                         +:+ err) w in
              RetryExited ConfigurationError (set_isDisabled true h) w
          end
      | (Return (Some err), w) =>
          retryLoop net config rest retryAttempt h
            (error h ("Failed to reconnect to Rybbit: " +:+ err) w)
      end
  end.

Definition retryConnection (net : Net) (config : Config)
    (sel : list RetrySelect) (h : UmamiFeeder) (w : World) : RetryResult :=
  retryLoop net config sel 0 h w.

(** *** New *)

(** The construction of the plugin.  [None] is the panic of [make] on a
    queue size out of range; otherwise the result holds the plugin, the
    world and whether the goroutine of [retryConnection] was launched. *)
Definition New (config : Config) (name_ : string) (w : World)
  : option (UmamiFeeder * World * bool) :=
  match make_chan (QueueSize config) with
  | None => None
  | Some q =>
      let h :=
        {| name := name_;
           isDebug := Debug config;
           isDisabled := Disabled config;
           queue := q;
           batchSize := BatchSize config;
           batchMaxWait := 1 * Duration.Second;
           host := ConfigHost config;
           apiKey := ConfigAPIKey config;
           websites := Websites config;
           createNewWebsites := false;
           trackErrors := TrackErrors config;
           trackAllResources := TrackAllResources config;
           trackExtensions := TrackExtensions config;
           ignoreUserAgents := IgnoreUserAgents config;
           ignoreRegexps := [];
           ignorePrefixes := [];
           headerIp := HeaderIp config |} in
      if negb (isDisabled h) then
        let h := set_isDisabled true h in
        let w := debug h ("batchSize " +:+ itoa (batchSize h)) w in
        let w :=
          debug h ("batchMaxWait " +:+ show_duration (batchMaxWait h)) w in
        Some (h, w, true)
      else Some (h, w, false)
  end.

(** *** The filters *)

(** [strings.Contains(s, substr)]. *)
Fixpoint strings_Contains (s substr : string) : bool :=
  String.prefix substr s
  || match s with
     | EmptyString => false
     | String _ s' => strings_Contains s' substr
     end.

(** [path.Ext]: the suffix that starts at the last dot of the last
    element of the path, scanning with the extension found so far. *)
Fixpoint path_Ext_from (found : string) (p : string) : string :=
  match p with
  | EmptyString => found
  | String c rest =>
      if Ascii.eqb c "/"%char then path_Ext_from "" rest
      else if Ascii.eqb c "."%char then path_Ext_from p rest
      else path_Ext_from found rest
  end.

Definition path_Ext (p : string) : string := path_Ext_from "" p.

(** A block of [shouldTrack] returns from the function or falls through
    to the next block. *)
Inductive Block : Type :=
  | Returns (b : bool) (w : World)
  | FallsThrough (w : World).

Definition requestIp (h : UmamiFeeder) (req : Request) : string :=
  let v := Header_Get req (headerIp h) in
  if String.eqb v "" then RemoteAddr req else v.

Definition checkIP (h : UmamiFeeder) (req : Request) (w : World) : Block :=
  match ignorePrefixes h with
  | [] => FallsThrough w
  | _ :: _ =>
      match ParseAddr (requestIp h req) with
      | Err _ => Returns false (debug h ("invalid IP " +:+ requestIp h req) w)
      | Ok ip =>
          if existsb (fun prefix => Prefix_Contains prefix ip)
                     (ignorePrefixes h)
          then Returns false (debug h ("ignoring IP " +:+ Addr_String ip) w)
          else FallsThrough w
      end
  end.

Definition checkUserAgent (h : UmamiFeeder) (req : Request) (w : World)
  : Block :=
  let userAgent := Request_UserAgent req in
  if existsb (fun disabledUserAgent =>
                strings_Contains userAgent disabledUserAgent)
             (ignoreUserAgents h)
  then Returns false (debug h ("ignoring user-agent " +:+ userAgent) w)
  else FallsThrough w.

Definition checkURL (h : UmamiFeeder) (req : Request) (w : World) : Block :=
  let requestURL := URL_String req in
  if existsb (fun r => Regexp_MatchString r requestURL) (ignoreRegexps h)
  then Returns false (debug h ("ignoring location " +:+ requestURL) w)
  else FallsThrough w.

Definition contentExtensions : list string :=
  [""; ".htm"; ".html"; ".xhtml"; ".jsf"; ".md"; ".php"; ".rss"; ".rtf";
   ".txt"; ".xml"; ".pdf"].

Definition shouldTrackResource (h : UmamiFeeder) (url : string) : bool :=
  if trackAllResources h then true
  else
    let pathExt := path_Ext url in
    match trackExtensions h with
    | _ :: _ => existsb (fun suffix => String.eqb suffix pathExt)
                        (trackExtensions h)
    | [] => existsb (String.eqb pathExt) contentExtensions
    end.

Definition checkResource (h : UmamiFeeder) (req : Request) (w : World)
  : Block :=
  if negb (shouldTrackResource h (URL_Path req))
  then Returns false (debug h ("ignoring resource " +:+ URL_Path req) w)
  else FallsThrough w.

Definition checkWebsite (h : UmamiFeeder) (req : Request) (w : World)
  : bool * World :=
  if createNewWebsites h then (true, w)
  else
    let hostname := parseDomainFromHost (Host req) in
    match websites h !! hostname with
    | Some _ => (true, w)
    | None => (false, debug h ("ignoring domain " +:+ hostname) w)
    end.

Definition and_then (b : Block) (k : World -> bool * World) : bool * World :=
  match b with
  | Returns r w => (r, w)
  | FallsThrough w => k w
  end.

Definition shouldTrack (h : UmamiFeeder) (req : Request) (w : World)
  : bool * World :=
  and_then (checkIP h req w) (fun w =>
  and_then (checkUserAgent h req w) (fun w =>
  and_then (checkURL h req w) (fun w =>
  and_then (checkResource h req w) (fun w =>
  checkWebsite h req w)))).

Definition shouldTrackStatus (h : UmamiFeeder) (statusCode : Z) (w : World)
  : bool * World :=
  if 400 <=? statusCode then
    if trackErrors h then (true, w)
    else (false, debug h ("not reporting " +:+ itoa statusCode +:+ " error") w)
  else (true, w).

(** *** submitToFeed *)

Definition newEvent (h : UmamiFeeder) (req : Request)
    (hostname websiteId : string) : RybbitEvent :=
  {| APIKey := apiKey h;
     SiteID := websiteId;
     Type_ := "pageview";
     Pathname := URL_Path req;
     Hostname := hostname;
     IP := extractRemoteIP req;
     UserAgent := Header_Get req "User-Agent";
     Referrer := Request_Referer req;
     Language := parseAcceptLanguage (Header_Get req "Accept-Language");
     EventName := "";
     Properties := "" |}.

Definition submitToFeed (h : UmamiFeeder) (req : Request) (code : Z)
    (w : World) : UmamiFeeder * World :=
  let hostname := parseDomainFromHost (Host req) in
  match websites h !! hostname with
  | None =>
      (h, error h ("tracking skipped, site-id is unknown: " +:+ hostname) w)
  | Some websiteId =>
      let rEvent := newEvent h req hostname websiteId in
      match chan_trysend (queue h) rEvent with
      | SentDirect q => (set_queue q h, record_handed rEvent w)
      | SentBuffered q => (set_queue q h, w)
      | NotSent => (h, error h "failed to submit event: queue full" w)
      end
  end.

(** *** The response writer *)

(** The wrapper around the response writer of the proxy: [written] are
    the calls of [WriteHeader] that reached the wrapped writer. *)
Record ResponseWriter : Type := {
  written : list Z;
  request : Request
}.

Definition WriteHeader (rw : ResponseWriter) (code : Z) (h : UmamiFeeder)
    (w : World) : ResponseWriter * UmamiFeeder * World :=
  let '(report, w) := shouldTrackStatus h code w in
  let '(h, w) := if report then submitToFeed h (request rw) code w
                 else (h, w) in
  ({| written := written rw ++ [code]; request := request rw |}, h, w).

(** A handler, seen from its response writer: the status codes it passes
    to [WriteHeader], in order. *)
Definition Handler : Type := Request -> list Z.

Fixpoint writeHeaders (rw : ResponseWriter) (codes : list Z)
    (h : UmamiFeeder) (w : World) : ResponseWriter * UmamiFeeder * World :=
  match codes with
  | [] => (rw, h, w)
  | code :: rest =>
      let '(rw, h, w) := WriteHeader rw code h w in
      writeHeaders rw rest h w
  end.

(** [ServeHTTP]: the result holds the header writes that reached the
    writer of the proxy. *)
Definition ServeHTTP (next : Handler) (h : UmamiFeeder) (req : Request)
    (w : World) : list Z * UmamiFeeder * World :=
  if isDisabled h then (next req, h, w)
  else
    let '(track, w) := shouldTrack h req w in
    if track then
      let '(rw, h, w) :=
        writeHeaders {| written := []; request := req |} (next req) h w in
      (written rw, h, w)
    else (next req, h, w).

(** *** The batching worker *)

(** [reportEventsToUmami]: the loop over the batch.  The deferred closing
    of the response bodies has no effect that is modelled. *)
Fixpoint reportEvents (net : Net) (h : UmamiFeeder) (events : list SendBody)
    (w : World) : Go unit * World :=
  match events with
  | [] => (Return tt, w)
  | value :: rest =>
      match sendRequest net (host h +:+ "/api/track")
                        (VEvent (Payload value)) w with
      | (Failed err, w) =>
          (Return tt, error h ("failed to send tracking: " +:+ err) w)
      | (Panicked v, w) => (Raise v, w)
      | (Responded status body, w) =>
          let w := if isDebug h then debug h (status +:+ ": " +:+ body) w
                   else w in
          reportEvents net h rest w
      end
  end.

Definition reportEventsToUmami (net : Net) (h : UmamiFeeder)
    (events : list SendBody) (w : World) : Go unit * World :=
  let w :=
    debug h ("reporting " +:+ itoa (Z.of_nat (length events)) +:+ " events")
          w in
  reportEvents net h events w.

(** A [time.Timer]: armed until its channel delivers, and armed again by
    [Reset]. *)
Record Timer : Type := {
  armed : bool;
  period : Z
}.

Definition NewTimer (d : Z) : Timer := {| armed := true; period := d |}.
Definition Timer_Reset (d : Z) (t : Timer) : Timer :=
  {| armed := true; period := d |}.
Definition Timer_fired (t : Timer) : Timer :=
  {| armed := false; period := period t |}.

(** The local variables of [umamiEventFeeder]. *)
Record Worker : Type := {
  batch : list SendBody;
  timeout : Timer
}.

(** Which case of the [select] of the worker is taken; a receive from
    the queue comes with the event received. *)
Inductive Select : Type :=
  | CtxDone
  | QueueEvent (event : RybbitEvent)
  | TimeoutC.

(** The wrapping [&SendBody{Payload: event, Type: "event"}]. *)
Definition envelope (event : RybbitEvent) : SendBody :=
  {| Payload := event; SendType := "event" |}.

(** One iteration of the loop of [umamiEventFeeder]. *)
Inductive Iteration : Type :=
  | Loops (st : Worker) (w : World)
  | ReturnsErr (err : GoError) (w : World)
  | Panics (value : string) (w : World)
  | NotReady.

Definition iteration (net : Net) (h : UmamiFeeder) (st : Worker)
    (s : Select) (w : World) : Iteration :=
  match s with
  | CtxDone =>
      let w := debug h "worker shutting down (canceled)" w in
      if 0 <? Z.of_nat (length (batch st)) then
        match reportEventsToUmami net h (batch st) w with
        | (Return _, w) => ReturnsErr None w
        | (Raise v, w) => Panics v w
        end
      else ReturnsErr None w
  | QueueEvent event =>
      let batch' := batch st ++ [envelope event] in
      if batchSize h <=? Z.of_nat (length batch') then
        match reportEventsToUmami net h batch' w with
        | (Return _, w) =>
            Loops {| batch := [];
                     timeout := Timer_Reset (batchMaxWait h) (timeout st) |} w
        | (Raise v, w) => Panics v w
        end
      else Loops {| batch := batch'; timeout := timeout st |} w
  | TimeoutC =>
      if armed (timeout st) then
        let fired := Timer_fired (timeout st) in
        if 0 <? Z.of_nat (length (batch st)) then
          match reportEventsToUmami net h (batch st) w with
          | (Return _, w) =>
              Loops {| batch := [];
                       timeout := Timer_Reset (batchMaxWait h) fired |} w
          | (Raise v, w) => Panics v w
          end
        else
          Loops {| batch := batch st;
                   timeout := Timer_Reset (batchMaxWait h) fired |} w
      else NotReady
  end.

(** The outcome of a goroutine run on finitely many [select] cases. *)
Inductive Run (A : Type) : Type :=
  | Done (a : A) (rest : list Select) (w : World)
  | Unwinding (value : string) (rest : list Select) (w : World)
  | Blocked (st : Worker) (w : World)
  | Stuck.
Arguments Done {A} a rest w.
Arguments Unwinding {A} value rest w.
Arguments Blocked {A} st w.
Arguments Stuck {A}.

(** The [for] loop of [umamiEventFeeder]. *)
Fixpoint feederLoop (net : Net) (h : UmamiFeeder) (sel : list Select)
    (st : Worker) (w : World) : Run GoError :=
  match sel with
  | [] => Blocked st w
  | s :: rest =>
      match iteration net h st s w with
      | Loops st' w' => feederLoop net h rest st' w'
      | ReturnsErr err w' => Done err rest w'
      | Panics v w' => Unwinding v rest w'
      | NotReady => Stuck
      end
  end.

(** [umamiEventFeeder]: the loop under the deferred function.  The
    result parameter [err] is assigned nowhere but by the [return]
    statement of the loop; the deferred function recovers a panic and
    logs it, and the function then returns [err] as it stands.  The
    first panic that can occur is the one of
    [make([]*SendBody, 0, h.batchSize)] on a batch size out of range:
    the loop is then never entered and no case of the [select] is
    taken. *)
Definition umamiEventFeeder (net : Net) (h : UmamiFeeder)
    (sel : list Select) (w : World) : Run GoError :=
  let err : GoError := None in
  let body :=
    if Runtime.makeslice_ok (batchSize h) then
      let st := {| batch := []; timeout := NewTimer (batchMaxWait h) |} in
      feederLoop net h sel st w
    else Unwinding Runtime.makeslice_panic sel w in
  match body with
  | Unwinding panicVal rest w =>
      Done err rest (error h ("panic: " +:+ panicVal) w)
  | r => r
  end.

(** [startWorker]; [fuel] bounds the number of times the loop calls
    [umamiEventFeeder].  [None] is the end of the fuel. *)
Fixpoint startWorker (fuel : nat) (net : Net) (h : UmamiFeeder)
    (sel : list Select) (w : World) : option (Run unit) :=
  match fuel with
  | O => None
  | S fuel =>
      match umamiEventFeeder net h sel w with
      | Done (Some err) rest w =>
          startWorker fuel net h rest (error h ("worker failed: " +:+ err) w)
      | Done None rest w => Some (Done tt rest w)
      | Unwinding v rest w => Some (Unwinding v rest w)
      | Blocked st w => Some (Blocked st w)
      | Stuck => Some Stuck
      end
  end.

End Plugin.

Arguments Return {A} a.
Arguments Raise {A} value.
Arguments Done {A} a rest w.
Arguments Unwinding {A} value rest w.
Arguments Blocked {A} st w.
Arguments Stuck {A}.

(** ** Instances of the interfaces

    The properties below hold for every instance.  The instances here
    serve to run the model on concrete requests: IPv4 addresses in
    dotted-quad notation, patterns without metacharacters, and plain
    helpers. *)

Module IPv4.

Definition digit (c : ascii) : option Z :=
  let n := Z.of_nat (nat_of_ascii c) in
  if (48 <=? n) && (n <=? 57) then Some (n - 48) else None.

Fixpoint decimal_from (acc : Z) (s : string) : option Z :=
  match s with
  | EmptyString => Some acc
  | String c rest =>
      match digit c with
      | Some d => decimal_from (10 * acc + d) rest
      | None => None
      end
  end.

(** A decimal number without sign and without leading zero. *)
Definition decimal (s : string) : option Z :=
  match s with
  | EmptyString => None
  | String c rest =>
      if Ascii.eqb c "0"%char && negb (String.eqb rest "") then None
      else decimal_from 0 s
  end.

(** The fields of [s] between the occurrences of [sep]. *)
Fixpoint split (sep : ascii) (s : string) : list string :=
  match s with
  | EmptyString => [""]
  | String c rest =>
      if Ascii.eqb c sep then "" :: split sep rest
      else
        match split sep rest with
        | [] => [String c ""]
        | f :: fs => String c f :: fs
        end
  end.

Definition octet (s : string) : option Z :=
  match decimal s with
  | Some n => if n <=? 255 then Some n else None
  | None => None
  end.

Definition parseAddr (s : string) : result Z :=
  match split "."%char s with
  | [a; b; c; d] =>
      match octet a, octet b, octet c, octet d with
      | Some a, Some b, Some c, Some d =>
          Ok (Z.lor (Z.shiftl a 24)
                (Z.lor (Z.shiftl b 16) (Z.lor (Z.shiftl c 8) d)))
      | _, _, _, _ => Err ("unable to parse IP: " +:+ s)
      end
  | _ => Err ("unable to parse IP: " +:+ s)
  end.

Definition parsePrefix (s : string) : result (Z * Z) :=
  match split "/"%char s with
  | [a; bits] =>
      match parseAddr a, decimal bits with
      | Ok ip, Some n =>
          if n <=? 32 then Ok (ip, n)
          else Err ("prefix length out of range: " +:+ s)
      | _, _ => Err ("bad prefix: " +:+ s)
      end
  | _ => Err ("no '/' in prefix: " +:+ s)
  end.

Definition contains (p : Z * Z) (ip : Z) : bool :=
  let '(base, bits) := p in
  Z.shiftr base (32 - bits) =? Z.shiftr ip (32 - bits).

Definition isValid (p : Z * Z) : bool :=
  let '(_, bits) := p in (0 <=? bits) && (bits <=? 32).

Definition toString (ip : Z) : string :=
  let byte (k : Z) : string :=
    pretty (Z.to_N (Z.land (Z.shiftr ip k) 255)) in
  byte 24 +:+ "." +:+ byte 16 +:+ "." +:+ byte 8 +:+ "." +:+ byte 0.

End IPv4.

#[export] Instance ipv4 : NetIP := {|
  Addr := Z;
  Prefix := Z * Z;
  ParseAddr := IPv4.parseAddr;
  ParsePrefix := IPv4.parsePrefix;
  Prefix_IsValid := IPv4.isValid;
  Prefix_Contains := IPv4.contains;
  Addr_String := IPv4.toString
|}.

Module Literal.

Definition metacharacters : string := "\.+*?()|[]{}^$".

Fixpoint mentions (c : ascii) (s : string) : bool :=
  match s with
  | EmptyString => false
  | String d rest => Ascii.eqb c d || mentions c rest
  end.

Fixpoint plain (s : string) : bool :=
  match s with
  | EmptyString => true
  | String c rest => negb (mentions c metacharacters) && plain rest
  end.

(** A pattern without metacharacters compiles, and matches the texts it
    occurs in. *)
Definition compile (s : string) : result string :=
  if plain s then Ok s
  else Err ("error parsing regexp: unsupported pattern: " +:+ s).

End Literal.

#[export] Instance literal_regex : Regex := {|
  Regexp := string;
  regexp_Compile := Literal.compile;
  Regexp_MatchString := fun r text => strings_Contains text r
|}.

Module Plain.

(** The host without its port. *)
Definition hostname (hostport : string) : string :=
  match IPv4.split ":"%char hostport with
  | h :: _ => h
  | [] => hostport
  end.

End Plain.

#[export] Instance plain_helpers : Helpers := {|
  parseDomainFromHost := Plain.hostname;
  extractRemoteIP := fun req => Plain.hostname (RemoteAddr req);
  parseAcceptLanguage := fun s => s
|}.

(** *** Sample data *)

Definition sampleConfig : Config :=
  {| Disabled := false;
     Debug := false;
     QueueSize := 2;
     BatchSize := 2;
     BatchMaxWait := 5 * Duration.Second;
     ConfigHost := "http://rybbit.example";
     ConfigAPIKey := "rb_key";
     Websites := {[ "example.com" := "1" ]};
     TrackErrors := false;
     TrackAllResources := false;
     TrackExtensions := [];
     IgnoreUserAgents := [];
     IgnoreURLs := [];
     IgnoreIPs := ["10.0.0.0/8"];
     HeaderIp := "X-Real-Ip" |}.

Definition sampleRequest : Request :=
  {| Host := "example.com";
     RemoteAddr := "192.0.2.7:51234";
     Header := {[ "X-Real-Ip" := "192.0.2.7"; "User-Agent" := "curl/8" ]};
     URL_Path := "/index.html";
     URL_String := "/index.html" |}.

(** A collector that answers every request. *)
Definition healthy : Net := fun _ _ => Responded "200 OK" "ok".

(** A collector that comes up after three failed probes. *)
Definition recovering : Net :=
  fun n _ =>
    if (n <? 3)%nat then Failed "connection refused"
    else Responded "200 OK" "ok".

(** A transport whose first call panics. *)
Definition faulty : Net :=
  fun n _ =>
    match n with
    | O => Panicked "runtime error: invalid memory address"
    | S _ => Responded "200 OK" "ok"
    end.

(** The plugin as [New] builds it from [sampleConfig] and as
    [retryConnection] leaves it once the collector has answered. *)
Definition sampleFeeder : UmamiFeeder :=
  {| name := "rybbit";
     isDebug := false;
     isDisabled := false;
     queue := {| buf := []; cap := 2; recvq := false |};
     batchSize := 2;
     batchMaxWait := 1 * Duration.Second;
     host := "http://rybbit.example";
     apiKey := "rb_key";
     websites := {[ "example.com" := "1" ]};
     createNewWebsites := false;
     trackErrors := false;
     trackAllResources := false;
     trackExtensions := [];
     ignoreUserAgents := [];
     ignoreRegexps := [];
     ignorePrefixes := [(167772160, 8)];
     headerIp := "X-Real-Ip" |}.

Definition sampleEvent : RybbitEvent :=
  {| APIKey := "rb_key";
     SiteID := "1";
     Type_ := "pageview";
     Pathname := "/index.html";
     Hostname := "example.com";
     IP := "192.0.2.7";
     UserAgent := "curl/8";
     Language := "";
     EventName := "";
     Referrer := "";
     Properties := "" |}.

(** [New] followed by the goroutine of [retryConnection]. *)
Definition startup `{NetIP} `{Regex} `{Helpers} (net : Net)
    (config : Config) (name_ : string) (sel : list RetrySelect)
  : option RetryResult :=
  match New config name_ world0 with
  | Some (h, w, true) => Some (retryConnection net config sel h w)
  | Some (h, w, false) => Some (RetryExited RetryCancelled h w)
  | None => None
  end.

(** The number of error lines of a log. *)
Definition error_lines (log : list LogLine) : nat :=
  length (List.filter
            (fun l => match level l with ERR => true | DBG => false end)
                 log).

(** The settings that [connect] asks for before it probes. *)
Definition missing_settings `{NetIP} `{Regex} (h : UmamiFeeder) : Prop :=
  host h = "" \/ apiKey h = "" \/ websites h = ∅.

(** The call that [reportEventsToUmami] makes for one element of the
    batch: [sendRequest(ctx, h.host+"/api/track", value.Payload, nil)]. *)
Definition trackCall `{NetIP} `{Regex} (h : UmamiFeeder) (value : SendBody)
  : Call :=
  {| call_url := host h +:+ "/api/track";
     call_body := VEvent (Payload value) |}.

(** The status codes that [shouldTrackStatus] accepts. *)
Definition accepted `{NetIP} `{Regex} (h : UmamiFeeder) (code : Z) : Prop :=
  code < 400 \/ trackErrors h = true.

(** An event whose site identifier is the entry of its hostname in the
    websites map. *)
Definition site_known `{NetIP} `{Regex} (h : UmamiFeeder) (e : RybbitEvent)
  : Prop :=
  websites h !! Hostname e = Some (SiteID e).

(** The plugin that [New] builds from [CreateConfig], before [New]
    forces [isDisabled]. *)
Definition emptyFeeder : UmamiFeeder :=
  {| name := "rybbit";
     isDebug := false;
     isDisabled := false;
     queue := {| buf := []; cap := 1000; recvq := false |};
     batchSize := 20;
     batchMaxWait := 1 * Duration.Second;
     host := "";
     apiKey := "";
     websites := ∅;
     createNewWebsites := false;
     trackErrors := false;
     trackAllResources := false;
     trackExtensions := [];
     ignoreUserAgents := [];
     ignoreRegexps := [];
     ignorePrefixes := [];
     headerIp := "X-Real-Ip" |}.

(** The plugin as [New] returns it, before the collector has answered. *)
Definition freshFeeder : UmamiFeeder :=
  {| name := "rybbit";
     isDebug := false;
     isDisabled := true;
     queue := {| buf := []; cap := 2; recvq := false |};
     batchSize := 2;
     batchMaxWait := 1 * Duration.Second;
     host := "http://rybbit.example";
     apiKey := "rb_key";
     websites := {[ "example.com" := "1" ]};
     createNewWebsites := false;
     trackErrors := false;
     trackAllResources := false;
     trackExtensions := [];
     ignoreUserAgents := [];
     ignoreRegexps := [];
     ignorePrefixes := [];
     headerIp := "X-Real-Ip" |}.

(** The sample plugin with its queue full. *)
Definition fullFeeder : UmamiFeeder :=
  set_queue {| buf := [sampleEvent; sampleEvent]; cap := 2; recvq := false |}
            sampleFeeder.

(** A plugin whose websites map gives the host an empty identifier. *)
Definition blankSiteFeeder : UmamiFeeder :=
  {| name := "rybbit";
     isDebug := false;
     isDisabled := false;
     queue := {| buf := []; cap := 2; recvq := false |};
     batchSize := 2;
     batchMaxWait := 1 * Duration.Second;
     host := "http://rybbit.example";
     apiKey := "rb_key";
     websites := {[ "example.com" := "" ]};
     createNewWebsites := false;
     trackErrors := false;
     trackAllResources := false;
     trackExtensions := [];
     ignoreUserAgents := [];
     ignoreRegexps := [];
     ignorePrefixes := [];
     headerIp := "X-Real-Ip" |}.

(** A request for a host that the websites map does not know. *)
Definition strangerRequest : Request :=
  {| Host := "other.com";
     RemoteAddr := "192.0.2.7:51234";
     Header := {[ "X-Real-Ip" := "192.0.2.7" ]};
     URL_Path := "/";
     URL_String := "/" |}.

(** A request from inside the ignored network, and one whose address
    header holds no address. *)
Definition insideRequest : Request :=
  {| Host := "example.com";
     RemoteAddr := "10.1.2.3:4000";
     Header := {[ "X-Real-Ip" := "10.1.2.3" ]};
     URL_Path := "/";
     URL_String := "/" |}.

Definition garbledRequest : Request :=
  {| Host := "example.com";
     RemoteAddr := "192.0.2.7:51234";
     Header := {[ "X-Real-Ip" := "unknown" ]};
     URL_Path := "/";
     URL_String := "/" |}.

(** A request without the address header: the remote address, which
    carries a port, stands in. *)
Definition directRequest : Request :=
  {| Host := "example.com";
     RemoteAddr := "192.0.2.7:51234";
     Header := ∅;
     URL_Path := "/";
     URL_String := "/" |}.

(** A handler that sends early hints before its final status. *)
Definition earlyHints : Handler := fun _ => [103; 200].

(** The events that a run of [select] cases hands to the worker. *)
Fixpoint events_of (sel : list Select) : list RybbitEvent :=
  match sel with
  | [] => []
  | QueueEvent event :: rest => event :: events_of rest
  | _ :: rest => events_of rest
  end.

(** What the address check of [shouldTrack] lets through: no prefix is
    configured, or the address parses and lies in none of them. *)
Definition ip_allowed `{NetIP} `{Regex} (h : UmamiFeeder) (req : Request)
  : Prop :=
  ignorePrefixes h = []
  \/ exists ip,
       ParseAddr (requestIp h req) = Ok ip
       /\ forall prefix,
            In prefix (ignorePrefixes h) -> Prefix_Contains prefix ip = false.

(** A string without the given character. *)
Fixpoint lacks (c : ascii) (s : string) : bool :=
  match s with
  | EmptyString => true
  | String d rest => negb (Ascii.eqb d c) && lacks c rest
  end.

(** The sample plugin with other filter settings. *)
Definition with_userAgents (uas : list string) (h : UmamiFeeder)
  : UmamiFeeder :=
  {| name := name h; isDebug := isDebug h; isDisabled := isDisabled h;
     queue := queue h; batchSize := batchSize h;
     batchMaxWait := batchMaxWait h; host := host h; apiKey := apiKey h;
     websites := websites h; createNewWebsites := createNewWebsites h;
     trackErrors := trackErrors h;
     trackAllResources := trackAllResources h;
     trackExtensions := trackExtensions h;
     ignoreUserAgents := uas;
     ignoreRegexps := ignoreRegexps h;
     ignorePrefixes := ignorePrefixes h; headerIp := headerIp h |}.

Definition with_extensions (exts : list string) (h : UmamiFeeder)
  : UmamiFeeder :=
  {| name := name h; isDebug := isDebug h; isDisabled := isDisabled h;
     queue := queue h; batchSize := batchSize h;
     batchMaxWait := batchMaxWait h; host := host h; apiKey := apiKey h;
     websites := websites h; createNewWebsites := createNewWebsites h;
     trackErrors := trackErrors h;
     trackAllResources := trackAllResources h;
     trackExtensions := exts;
     ignoreUserAgents := ignoreUserAgents h;
     ignoreRegexps := ignoreRegexps h;
     ignorePrefixes := ignorePrefixes h; headerIp := headerIp h |}.

(** A crawler asking for the sample page. *)
Definition crawlerRequest : Request :=
  {| Host := "example.com";
     RemoteAddr := "192.0.2.7:51234";
     Header := {[ "X-Real-Ip" := "192.0.2.7";
                  "User-Agent" := "Googlebot/2.1" ]};
     URL_Path := "/index.html";
     URL_String := "/index.html" |}.

(** A handler that answers with an error. *)
Definition failing : Handler := fun _ => [500].

(** The error lines of a log. *)
Definition errors_of (log : list LogLine) : list LogLine :=
  List.filter (fun l => match level l with ERR => true | DBG => false end)
              log.

(** The error line of a full queue. *)
Definition queue_full_line `{NetIP} `{Regex} (h : UmamiFeeder) : LogLine :=
  {| level := ERR; middlewareName := name h;
     message := "failed to submit event: queue full" |}.

(** An entry of [ignoreIPs] and the prefix that [verifyConfig] makes of
    it: the entry parses as a prefix, or it does not and parses as one
    with ["/32"] appended; the prefix must be valid. *)
Definition prefix_of_entry `{NetIP} (entry : string) (p : Prefix) : Prop :=
  (ParsePrefix entry = Ok p
   \/ ((exists msg, ParsePrefix entry = Err msg)
       /\ ParsePrefix (entry +:+ "/32") = Ok p))
  /\ Prefix_IsValid p = true.

(** The call of the health probe. *)
Definition healthCall `{NetIP} `{Regex} (h : UmamiFeeder) : Call :=
  {| call_url := host h +:+ "/health"; call_body := VNil |}.

(** A configuration with an entry of [ignoreIPs] that is no address, and
    one with a bare address. *)
Definition brokenConfig : Config :=
  {| Disabled := false;
     Debug := false;
     QueueSize := 2;
     BatchSize := 2;
     BatchMaxWait := 5 * Duration.Second;
     ConfigHost := "http://rybbit.example";
     ConfigAPIKey := "rb_key";
     Websites := {[ "example.com" := "1" ]};
     TrackErrors := false;
     TrackAllResources := false;
     TrackExtensions := [];
     IgnoreUserAgents := [];
     IgnoreURLs := ["/health"];
     IgnoreIPs := ["10.0.0.0/8"; "localhost"];
     HeaderIp := "X-Real-Ip" |}.

Definition bareConfig : Config :=
  {| Disabled := false;
     Debug := false;
     QueueSize := 2;
     BatchSize := 2;
     BatchMaxWait := 5 * Duration.Second;
     ConfigHost := "http://rybbit.example";
     ConfigAPIKey := "rb_key";
     Websites := {[ "example.com" := "1" ]};
     TrackErrors := false;
     TrackAllResources := false;
     TrackExtensions := [];
     IgnoreUserAgents := [];
     IgnoreURLs := ["/health"];
     IgnoreIPs := ["127.0.0.1"];
     HeaderIp := "X-Real-Ip" |}.

(** What holds of the local variables of the worker whenever it waits in
    its [select]: the timer is armed, and the batch is shorter than the
    batch size (or empty, when the batch size is below one). *)
Definition worker_waiting `{NetIP} `{Regex} (h : UmamiFeeder) (st : Worker)
  : Prop :=
  armed (timeout st) = true
  /\ Z.of_nat (length (batch st)) < Z.max 1 (batchSize h).

(** A collector that answers every call. *)
Definition responsive (net : Net) : Prop :=
  forall n c, exists status body, net n c = Responded status body.

(** A collector that fails on its third call. *)
Definition failsThird : Net :=
  fun n _ =>
    if (n =? 2)%nat then Failed "timeout" else Responded "200 OK" "ok".

(** The sample plugin with a negative batch size. *)
Definition negativeBatchFeeder : UmamiFeeder :=
  {| name := "rybbit";
     isDebug := false;
     isDisabled := false;
     queue := {| buf := []; cap := 2; recvq := false |};
     batchSize := -1;
     batchMaxWait := 1 * Duration.Second;
     host := "http://rybbit.example";
     apiKey := "rb_key";
     websites := {[ "example.com" := "1" ]};
     createNewWebsites := false;
     trackErrors := false;
     trackAllResources := false;
     trackExtensions := [];
     ignoreUserAgents := [];
     ignoreRegexps := [];
     ignorePrefixes := [];
     headerIp := "X-Real-Ip" |}.

(** The sample plugin without ignored prefixes. *)
Definition openFeeder : UmamiFeeder :=
  {| name := "rybbit";
     isDebug := false;
     isDisabled := false;
     queue := {| buf := []; cap := 2; recvq := false |};
     batchSize := 2;
     batchMaxWait := 1 * Duration.Second;
     host := "http://rybbit.example";
     apiKey := "rb_key";
     websites := {[ "example.com" := "1" ]};
     createNewWebsites := false;
     trackErrors := false;
     trackAllResources := false;
     trackExtensions := [];
     ignoreUserAgents := [];
     ignoreRegexps := [];
     ignorePrefixes := [];
     headerIp := "X-Real-Ip" |}.

(** An event that [submitToFeed] makes for some request whose hostname
    has an entry in the websites map, with that entry as its site
    identifier. *)
Definition submitted `{NetIP} `{Regex} `{Helpers} (h : UmamiFeeder)
    (e : RybbitEvent) : Prop :=
  exists req websiteId,
    websites h !! parseDomainFromHost (Host req) = Some websiteId
    /\ e = newEvent h req (parseDomainFromHost (Host req)) websiteId.

(** The world that a run leaves; a run that took a case that was not
    ready has none, and stands for the world it started from. *)
Definition run_world {A : Type} (r : Run A) (w0 : World) : World :=
  match r with
  | Done _ _ w => w
  | Unwinding _ _ w => w
  | Blocked _ w => w
  | Stuck => w0
  end.

(** * Properties *)

Example New_default :
  New CreateConfig "rybbit" world0
  = Some (set_isDisabled true emptyFeeder, world0, true).
Proof. reflexivity. Qed.

Example New_sample :
  New sampleConfig "rybbit" world0 = Some (freshFeeder, world0, true).
Proof. reflexivity. Qed.

Example startup_sample :
  startup healthy sampleConfig "rybbit" [AfterDelay]
  = Some (RetryExited WorkerStarted sampleFeeder
            {| stdout := [];
               requests := [{| call_url := "http://rybbit.example/health";
                               call_body := VNil |}];
               afters := [0];
               handed := [] |}).
Proof. reflexivity. Qed.

(** The collector is down for the first three probes: tracking stays
    disabled until the fourth attempt, made after delays of 0s, 30s, 60s
    and 120s, enables it. *)
Example startup_after_outage :
  startup recovering sampleConfig "rybbit"
          [AfterDelay; AfterDelay; AfterDelay; AfterDelay]
  = Some (RetryExited WorkerStarted sampleFeeder
            {| stdout :=
                 repeat
                   {| level := ERR; middlewareName := "rybbit";
                      message :=
                        "Failed to reconnect to Rybbit: Failed to get health for rybbit: connection refused" |}
                   3;
               requests :=
                 repeat {| call_url := "http://rybbit.example/health";
                           call_body := VNil |} 4;
               afters := map Duration.seconds [0; 30; 60; 120];
               handed := [] |}).
Proof. reflexivity. Qed.

(** ** The retry delay *)

Lemma currentDelay_first : currentDelay 0 = 0.
Proof. reflexivity. Qed.

Lemma currentDelay_doubling (n : Z) :
  1 <= n < 8 -> currentDelay n = Duration.seconds (15 * 2 ^ n).
Proof.
  intros Hn.
  assert (Hcases : n = 1 \/ n = 2 \/ n = 3 \/ n = 4 \/ n = 5 \/ n = 6 \/ n = 7)
    by lia.
  destruct Hcases as [-> | [-> | [-> | [-> | [-> | [-> | ->]]]]]];
    vm_compute; reflexivity.
Qed.

Lemma currentDelay_capped (n : Z) : 8 <= n -> currentDelay n = Duration.Hour.
Proof.
  intros Hn. unfold currentDelay.
  destruct (Z.eqb_spec n 0) as [-> | _]; [lia |].
  destruct (Z.ltb_spec n 8) as [Hlt | _]; [lia | reflexivity].
Qed.

(** C8: the delay before attempt 0 is zero, the delay at attempt [n] is
    fifteen seconds times [2 ^ n] for [1 <= n < 8] and one hour from
    attempt 8 on; the delays of attempts 0 to 9 are 0s, 30s, 60s, 120s,
    240s, 480s, 960s, 1920s, 3600s and 3600s. *)
Theorem retry_delay_schedule :
  currentDelay 0 = 0
  /\ (forall n, 1 <= n < 8 -> currentDelay n = Duration.seconds (15 * 2 ^ n))
  /\ (forall n, 8 <= n -> currentDelay n = Duration.seconds 3600)
  /\ map currentDelay [0; 1; 2; 3; 4; 5; 6; 7; 8; 9]
     = map Duration.seconds
           [0; 30; 60; 120; 240; 480; 960; 1920; 3600; 3600].
Proof.
  split; [exact currentDelay_first |].
  split; [exact currentDelay_doubling |].
  split; [exact currentDelay_capped |].
  vm_compute. reflexivity.
Qed.

Lemma retry_delay_schedule_witness :
  currentDelay 3 = Duration.seconds (15 * 2 ^ 3)
  /\ currentDelay 12 = Duration.seconds 3600.
Proof.
  destruct retry_delay_schedule as (_ & Hdouble & Hcap & _).
  split; [apply (Hdouble 3); lia | apply (Hcap 12); lia].
Defined.

(** ** The wait timer *)

Section WaitTimer.

Context `{NetIP} `{Regex} `{Helpers}.

Lemma New_batchMaxWait config name_ w h w' launched :
  New config name_ w = Some (h, w', launched) ->
  batchMaxWait h = Duration.Second.
Proof.
  unfold New. destruct (make_chan (QueueSize config)) as [q |]; [| discriminate].
  cbn [isDisabled negb].
  destruct (Disabled config); cbn [negb]; intros [= <- _ _]; reflexivity.
Qed.

Lemma iteration_period net h st s w st' w' :
  iteration net h st s w = Loops st' w' ->
  period (timeout st) = batchMaxWait h ->
  period (timeout st') = batchMaxWait h.
Proof.
  intros Hit Hp. destruct s as [| event |]; cbn [iteration] in Hit.
  - destruct (0 <? _); [| discriminate].
    destruct (reportEventsToUmami _ _ _ _) as [[] ?]; discriminate.
  - destruct (batchSize h <=? _).
    + destruct (reportEventsToUmami _ _ _ _) as [[] ?];
        [injection Hit as <- _; reflexivity | discriminate].
    + injection Hit as <- _. exact Hp.
  - destruct (armed (timeout st)); [| discriminate].
    destruct (0 <? _).
    + destruct (reportEventsToUmami _ _ _ _) as [[] ?];
        [injection Hit as <- _; reflexivity | discriminate].
    + injection Hit as <- _. reflexivity.
Qed.

Lemma feederLoop_period net h sel : forall st w st' w',
  feederLoop net h sel st w = Blocked st' w' ->
  period (timeout st) = batchMaxWait h ->
  period (timeout st') = batchMaxWait h.
Proof.
  induction sel as [| s rest IH]; intros st w st' w' Hrun Hp; cbn in Hrun.
  - injection Hrun as <- _. exact Hp.
  - destruct (iteration net h st s w) as [st1 w1 | | |] eqn:Hit;
      try discriminate.
    eapply IH; [exact Hrun |].
    eapply iteration_period; eassumption.
Qed.

Lemma umamiEventFeeder_period net h sel w st' w' :
  umamiEventFeeder net h sel w = Blocked st' w' ->
  period (timeout st') = batchMaxWait h.
Proof.
  unfold umamiEventFeeder.
  destruct (Runtime.makeslice_ok (batchSize h)); [| discriminate].
  destruct (feederLoop _ _ _ _ _) as [| | st1 w1 |] eqn:Hrun;
    try discriminate.
  intros [= <- _]. eapply feederLoop_period; [exact Hrun | reflexivity].
Qed.

(** C3, as the code has it: whatever the configuration says, [New] sets
    the maximal wait to one second, and the timer of the worker runs on
    that second, at its creation and after every reset. *)
Theorem wait_timer_is_one_second config name_ w h w' launched :
  New config name_ w = Some (h, w', launched) ->
  batchMaxWait h = Duration.Second
  /\ forall net sel w0 st w1,
       umamiEventFeeder net h sel w0 = Blocked st w1 ->
       period (timeout st) = Duration.Second.
Proof.
  intros Hnew. pose proof (New_batchMaxWait _ _ _ _ _ _ Hnew) as Hsec.
  split; [exact Hsec |].
  intros net sel w0 st w1 Hrun. rewrite <- Hsec.
  eapply umamiEventFeeder_period. exact Hrun.
Qed.

End WaitTimer.

Lemma wait_timer_is_one_second_witness :
  exists h w,
    New CreateConfig "rybbit" world0 = Some (h, w, true)
    /\ batchMaxWait h = Duration.Second
    /\ forall net sel w0 st w1,
         umamiEventFeeder net h sel w0 = Blocked st w1 ->
         period (timeout st) = Duration.Second.
Proof.
  eexists. eexists. split; [reflexivity |].
  eapply (wait_timer_is_one_second CreateConfig "rybbit" world0).
  reflexivity.
Defined.

(** C3 as stated fails: the default configuration asks for five seconds,
    and the worker built from it waits one second. *)
Lemma wait_timer_ignores_configuration :
  exists h w st w1,
    New CreateConfig "rybbit" world0 = Some (h, w, true)
    /\ BatchMaxWait CreateConfig = Duration.seconds 5
    /\ umamiEventFeeder healthy h [TimeoutC] w = Blocked st w1
    /\ period (timeout st) = Duration.seconds 1
    /\ batchMaxWait h <> BatchMaxWait CreateConfig.
Proof.
  do 4 eexists.
  split; [reflexivity |].
  split; [reflexivity |].
  split; [reflexivity |].
  split; [reflexivity |].
  cbn. discriminate.
Qed.

(** ** The connection supervisor *)

Section Supervisor.

Context `{NetIP} `{Regex} `{Helpers}.

Lemma error_lines_app (l1 l2 : list LogLine) :
  error_lines (l1 ++ l2) = (error_lines l1 + error_lines l2)%nat.
Proof. unfold error_lines. rewrite List.filter_app, length_app. reflexivity. Qed.

Lemma error_stdout h msg w :
  error_lines (stdout (error h msg w)) = S (error_lines (stdout w)).
Proof.
  unfold error, print. cbn [stdout]. rewrite error_lines_app.
  unfold error_lines at 2. cbn. lia.
Qed.

Lemma debug_stdout h msg w :
  error_lines (stdout (debug h msg w)) = error_lines (stdout w).
Proof.
  unfold debug. destruct (isDebug h); [| reflexivity].
  unfold print. cbn [stdout]. rewrite error_lines_app.
  unfold error_lines at 2. cbn. lia.
Qed.

Lemma debug_requests h msg w : requests (debug h msg w) = requests w.
Proof. unfold debug. destruct (isDebug h); reflexivity. Qed.

Lemma debug_afters h msg w : afters (debug h msg w) = afters w.
Proof. unfold debug. destruct (isDebug h); reflexivity. Qed.

Lemma debug_handed h msg w : handed (debug h msg w) = handed w.
Proof. unfold debug. destruct (isDebug h); reflexivity. Qed.

(** With a setting missing, [connect] fails before it sends anything. *)
Lemma connect_missing_settings net h w :
  missing_settings h ->
  exists msg, connect net h w = (Return (Some msg), w).
Proof.
  intros Hmiss. unfold connect.
  destruct (String.eqb_spec (host h) "") as [_ | Hhost]; [eauto |].
  destruct (String.eqb_spec (apiKey h) "") as [_ | Hkey]; [eauto |].
  destruct Hmiss as [Hm | [Hm | Hm]]; [contradiction | contradiction |].
  rewrite Hm, map_size_empty. cbn. eauto.
Qed.

Lemma Int64_add_small a : 0 <= a -> a + 1 < Int64.half -> Int64.add a 1 = a + 1.
Proof.
  intros Hpos Hsmall. unfold Int64.add, Int64.wrap64.
  unfold Int64.half, Int64.modulus in *. rewrite Z.mod_small; lia.
Qed.

(** The delays armed from attempt [a] on, [n] of them. *)
Lemma delays_from_next a n :
  map (fun i => currentDelay (a + Z.of_nat i)) (seq 0 (S n))
  = currentDelay a
    :: map (fun i => currentDelay (a + 1 + Z.of_nat i)) (seq 0 n).
Proof.
  cbn [seq map]. rewrite Z.add_0_r. f_equal.
  rewrite <- seq_shift, map_map. apply map_ext. intros i. f_equal. lia.
Qed.

Lemma retryLoop_missing_settings net config h n : forall a w,
  missing_settings h ->
  exists k w',
    retryLoop net config (repeat AfterDelay n) a h w = RetryWaiting k h w'
    /\ error_lines (stdout w') = (error_lines (stdout w) + n)%nat
    /\ requests w' = requests w
    /\ length (afters w') = (length (afters w) + S n)%nat
    /\ (0 <= a -> a + Z.of_nat n < Int64.half ->
        k = a + Z.of_nat n
        /\ afters w'
           = afters w
             ++ map (fun i => currentDelay (a + Z.of_nat i)) (seq 0 (S n))).
Proof.
  induction n as [| n IH]; intros a w Hmiss; cbn [repeat retryLoop];
    match goal with
    | |- context [record_after (currentDelay a) ?x] => set (pre := x)
    end;
    assert (Hpre : afters pre = afters w /\ requests pre = requests w
                   /\ error_lines (stdout pre) = error_lines (stdout w))
      by (subst pre; destruct (0 <? a);
          rewrite ?debug_stdout, ?debug_requests, ?debug_afters; auto);
    clearbody pre; destruct Hpre as (Hpa & Hpr & Hpe).
  - eexists. eexists. split; [reflexivity |].
    cbn [stdout requests afters record_after].
    rewrite Hpa, Hpr, Hpe, length_app. cbn [List.length seq map].
    rewrite Z.add_0_r. repeat split; lia.
  - match goal with
    | |- context [connect net h ?w1] =>
        destruct (connect_missing_settings net h w1 Hmiss) as [msg ->];
        destruct (IH (Int64.add a 1)
                     (error h ("Failed to reconnect to Rybbit: " +:+ msg) w1)
                     Hmiss) as (k & w' & -> & Herr & Hreq & Haft & Hexact)
    end.
    exists k, w'. split; [reflexivity |].
    rewrite error_stdout, debug_stdout in Herr.
    cbn [requests afters stdout error print record_after] in Herr, Hreq, Haft,
      Hexact.
    rewrite debug_requests in Hreq. rewrite debug_afters in Haft, Hexact.
    cbn [requests afters stdout record_after] in Hreq, Haft, Hexact.
    rewrite Hpe in Herr. rewrite Hpr in Hreq. rewrite Hpa in Haft, Hexact.
    rewrite length_app in Haft. cbn [List.length] in Haft.
    split; [lia |]. split; [exact Hreq |]. split; [lia |].
    intros Hpos Hsmall. rewrite Nat2Z.inj_succ in Hsmall.
    rewrite Int64_add_small in Hexact by lia.
    destruct Hexact as (-> & ->); [lia | lia |].
    split; [lia |].
    rewrite (delays_from_next a (S n)), <- app_assoc. reflexivity.
Qed.

Lemma retryLoop_missing_cancelled net config h n rest : forall a w,
  missing_settings h ->
  exists w',
    retryLoop net config (repeat AfterDelay n ++ RetryCtxDone :: rest) a h w
    = RetryExited RetryCancelled h w'
    /\ error_lines (stdout w') = (error_lines (stdout w) + n)%nat
    /\ requests w' = requests w.
Proof.
  induction n as [| n IH]; intros a w Hmiss; cbn [repeat app retryLoop];
    match goal with
    | |- context [record_after (currentDelay a) ?x] => set (pre := x)
    end;
    assert (Hpre : requests pre = requests w
                   /\ error_lines (stdout pre) = error_lines (stdout w))
      by (subst pre; destruct (0 <? a);
          rewrite ?debug_stdout, ?debug_requests; auto);
    clearbody pre; destruct Hpre as (Hpr & Hpe).
  - eexists. split; [reflexivity |].
    rewrite debug_stdout, debug_requests. cbn [stdout requests record_after].
    rewrite Hpe, Hpr. split; [lia | reflexivity].
  - match goal with
    | |- context [connect net h ?w1] =>
        destruct (connect_missing_settings net h w1 Hmiss) as [msg ->];
        destruct (IH (Int64.add a 1)
                     (error h ("Failed to reconnect to Rybbit: " +:+ msg) w1)
                     Hmiss) as (w' & -> & Herr & Hreq)
    end.
    exists w'. split; [reflexivity |].
    rewrite error_stdout, debug_stdout in Herr.
    cbn [requests stdout error print record_after] in Herr, Hreq.
    rewrite debug_requests in Hreq. cbn [requests record_after] in Hreq.
    rewrite Hpe in Herr. rewrite Hpr in Hreq.
    split; [lia | exact Hreq].
Qed.

Lemma retryLoop_missing_any net config h sel : forall a w,
  missing_settings h ->
  (~ In RetryCtxDone sel
   /\ exists k w', retryLoop net config sel a h w = RetryWaiting k h w')
  \/ (In RetryCtxDone sel
      /\ exists w',
           retryLoop net config sel a h w = RetryExited RetryCancelled h w').
Proof.
  induction sel as [| s rest IH]; intros a w Hmiss; cbn [retryLoop].
  - left. split; [intros [] | eauto].
  - destruct s.
    + match goal with
      | |- context [connect net h ?w1] =>
          destruct (connect_missing_settings net h w1 Hmiss) as [msg ->]
      end.
      match goal with
      | |- context [retryLoop net config rest ?a1 h ?w3] =>
          destruct (IH a1 w3 Hmiss) as [[Hno Hwait] | [Hyes Hdone]]
      end.
      * left. split; [| exact Hwait]. intros [[=] | Hin]. contradiction.
      * right. split; [right; exact Hyes | exact Hdone].
    + right. split; [left; reflexivity | eauto].
Qed.

Lemma retryLoop_fatal net config sel : forall a h w h' w',
  retryLoop net config sel a h w = RetryExited ConfigurationError h' w' ->
  host h <> "" /\ apiKey h <> "" /\ websites h <> ∅
  /\ exists err verified,
       verifyConfig config h = (Some err, verified)
       /\ h' = set_isDisabled true verified.
Proof.
  induction sel as [| s rest IH]; intros a h w h' w'; cbn [retryLoop];
    [discriminate |].
  destruct s; [| discriminate].
  match goal with
  | |- context [connect net h ?w1] => generalize w1
  end.
  intros w1. unfold connect.
  destruct (String.eqb_spec (host h) "") as [| Hhost]; [apply IH |].
  destruct (String.eqb_spec (apiKey h) "") as [| Hkey]; [apply IH |].
  destruct (Nat.eqb_spec (size (websites h)) 0) as [| Hsize]; [apply IH |].
  assert (Hsites : websites h <> ∅).
  { intros Hempty. rewrite Hempty, map_size_empty in Hsize. contradiction. }
  destruct (sendRequest net _ _ _) as [[status body | msg | v] w2].
  - destruct (verifyConfig config h) as [[err |] verified] eqn:Hverify;
      [| discriminate].
    intros [= <- _]. repeat (split; [assumption |]). eauto.
  - apply IH.
  - discriminate.
Qed.

(** C2, as the code has it: a missing host, API key or websites map makes
    [connect] fail before any probe is sent, and the supervisor treats
    the failure like an unreachable collector.  After [n] expired delays
    it has logged [n] errors, has armed the delay of the next attempt,
    each delay being the one of the backoff schedule, and is still
    waiting; a cancellation after these [n] delays ends it as cancelled.
    Whatever the cases of its [select], it ends in no other way and
    leaves the plugin unchanged, so tracking stays disabled and no
    worker is started.  The supervisor ends on a configuration error
    only when all three settings were there and [verifyConfig] failed. *)
Theorem missing_settings_are_retried net config h w n :
  missing_settings h ->
  (exists k w',
     retryConnection net config (repeat AfterDelay n) h w
     = RetryWaiting k h w'
     /\ error_lines (stdout w') = (error_lines (stdout w) + n)%nat
     /\ requests w' = requests w
     /\ length (afters w') = (length (afters w) + S n)%nat
     /\ (Z.of_nat n < Int64.half ->
         k = Z.of_nat n
         /\ afters w'
            = afters w ++ map (fun i => currentDelay (Z.of_nat i))
                              (seq 0 (S n))))
  /\ (forall rest,
        exists w',
          retryConnection net config
            (repeat AfterDelay n ++ RetryCtxDone :: rest) h w
          = RetryExited RetryCancelled h w'
          /\ error_lines (stdout w') = (error_lines (stdout w) + n)%nat
          /\ requests w' = requests w)
  /\ (forall sel,
        (~ In RetryCtxDone sel
         /\ exists k w',
              retryConnection net config sel h w = RetryWaiting k h w')
        \/ (In RetryCtxDone sel
            /\ exists w',
                 retryConnection net config sel h w
                 = RetryExited RetryCancelled h w'))
  /\ (forall sel a h0 w0 h' w',
        retryLoop net config sel a h0 w0
        = RetryExited ConfigurationError h' w' ->
        host h0 <> "" /\ apiKey h0 <> "" /\ websites h0 <> ∅
        /\ exists err verified,
             verifyConfig config h0 = (Some err, verified)
             /\ h' = set_isDisabled true verified).
Proof.
  intros Hmiss. unfold retryConnection.
  split; [| split; [| split]].
  - destruct (retryLoop_missing_settings net config h n 0 w Hmiss)
      as (k & w' & Hrun & Herr & Hreq & Haft & Hexact).
    exists k, w'. repeat (split; [assumption |]).
    intros Hsmall. apply Hexact; lia.
  - intros rest. apply retryLoop_missing_cancelled. exact Hmiss.
  - intros sel. apply retryLoop_missing_any. exact Hmiss.
  - apply retryLoop_fatal.
Qed.

End Supervisor.

Lemma missing_settings_are_retried_witness :
  (exists w',
     retryConnection healthy CreateConfig (repeat AfterDelay 4)
                     (set_isDisabled true emptyFeeder) world0
     = RetryWaiting 4 (set_isDisabled true emptyFeeder) w'
     /\ error_lines (stdout w') = 4%nat
     /\ requests w' = []
     /\ afters w' = map Duration.seconds [0; 30; 60; 120; 240])
  /\ (exists w',
        retryConnection healthy CreateConfig
          [AfterDelay; AfterDelay; AfterDelay; AfterDelay; RetryCtxDone;
           AfterDelay]
          (set_isDisabled true emptyFeeder) world0
        = RetryExited RetryCancelled (set_isDisabled true emptyFeeder) w'
        /\ error_lines (stdout w') = 4%nat
        /\ requests w' = []).
Proof.
  destruct (missing_settings_are_retried healthy CreateConfig
              (set_isDisabled true emptyFeeder) world0 4%nat
              (or_introl eq_refl))
    as ((k & w' & Hrun & Herr & Hreq & _ & Hexact) & Hcancel & _).
  split.
  - destruct Hexact as (-> & Haft); [vm_compute; reflexivity |].
    exists w'. split; [exact Hrun |]. split; [exact Herr |].
    split; [exact Hreq |]. rewrite Haft. vm_compute. reflexivity.
  - destruct (Hcancel [AfterDelay]) as (w2 & Hrun2 & Herr2 & Hreq2).
    exists w2. split; [exact Hrun2 |]. split; [exact Herr2 | exact Hreq2].
Defined.

(** C2 as stated fails: with the host missing, three expired delays give
    three attempts and three logged errors, and the supervisor goes on
    waiting for the fourth attempt instead of giving up. *)
Lemma missing_host_is_not_fatal :
  exists h w0,
    New CreateConfig "rybbit" world0 = Some (h, w0, true)
    /\ retryConnection healthy CreateConfig
         [AfterDelay; AfterDelay; AfterDelay] h w0
       = RetryWaiting 3 h
           {| stdout :=
                repeat {| level := ERR; middlewareName := "rybbit";
                          message :=
                            "Failed to reconnect to Rybbit: `host` is not set" |}
                       3;
              requests := [];
              afters := map Duration.seconds [0; 30; 60; 120];
              handed := [] |}.
Proof. eexists. eexists. split; reflexivity. Qed.

(** ** The batching worker *)

Section Batching.

Context `{NetIP} `{Regex} `{Helpers}.

(** C6: one iteration of the worker.  An event that brings the batch to
    the batch size is flushed with the batch at once, the batch is reset
    and the timer restarted, while a smaller batch only grows; the timer
    firing flushes the batch exactly when it is not empty and restarts
    the timer in both cases; cancellation flushes a batch that is not
    empty and then ends the worker.  A flush is the call of
    [reportEventsToUmami] on the whole batch. *)
Theorem batching_iteration net h st w :
  (forall event w',
     batchSize h <= Z.of_nat (length (batch st)) + 1 ->
     reportEventsToUmami net h (batch st ++ [envelope event]) w
     = (Return tt, w') ->
     iteration net h st (QueueEvent event) w
     = Loops {| batch := []; timeout := NewTimer (batchMaxWait h) |} w')
  /\ (forall event,
        Z.of_nat (length (batch st)) + 1 < batchSize h ->
        iteration net h st (QueueEvent event) w
        = Loops {| batch := batch st ++ [envelope event];
                   timeout := timeout st |} w)
  /\ (forall w',
        armed (timeout st) = true ->
        batch st <> [] ->
        reportEventsToUmami net h (batch st) w = (Return tt, w') ->
        iteration net h st TimeoutC w
        = Loops {| batch := []; timeout := NewTimer (batchMaxWait h) |} w')
  /\ (armed (timeout st) = true ->
      batch st = [] ->
      iteration net h st TimeoutC w
      = Loops {| batch := []; timeout := NewTimer (batchMaxWait h) |} w)
  /\ (forall w',
        batch st <> [] ->
        reportEventsToUmami net h (batch st)
          (debug h "worker shutting down (canceled)" w)
        = (Return tt, w') ->
        iteration net h st CtxDone w = ReturnsErr None w')
  /\ (batch st = [] ->
      iteration net h st CtxDone w
      = ReturnsErr None (debug h "worker shutting down (canceled)" w)).
Proof.
  assert (Hlen : forall b : list SendBody,
            b <> [] -> (0 <? Z.of_nat (length b)) = true).
  { intros [| x b] Hb; [contradiction | reflexivity]. }
  repeat split.
  - intros event w' Hsize Hflush. cbn [iteration].
    rewrite length_app, Nat2Z.inj_add.
    change (Z.of_nat (length [envelope event])) with 1.
    destruct (Z.leb_spec (batchSize h) (Z.of_nat (length (batch st)) + 1));
      [| lia].
    rewrite Hflush. reflexivity.
  - intros event Hsize. cbn [iteration].
    rewrite length_app, Nat2Z.inj_add.
    change (Z.of_nat (length [envelope event])) with 1.
    destruct (Z.leb_spec (batchSize h) (Z.of_nat (length (batch st)) + 1));
      [lia | reflexivity].
  - intros w' Harmed Hne Hflush. cbn [iteration].
    rewrite Harmed, (Hlen _ Hne), Hflush. reflexivity.
  - intros Harmed Hnil. cbn [iteration]. rewrite Harmed, Hnil. reflexivity.
  - intros w' Hne Hflush. cbn [iteration].
    rewrite (Hlen _ Hne), Hflush. reflexivity.
  - intros Hnil. cbn [iteration]. rewrite Hnil. reflexivity.
Qed.

(** While the collector answers, a flush sends one request for each
    event of the batch, in the order of the batch. *)
Lemma reportEvents_answered net h events : forall w,
  (forall n c, exists status body, net n c = Responded status body) ->
  exists w',
    reportEvents net h events w = (Return tt, w')
    /\ requests w'
       = requests w ++ map (trackCall h) events.
Proof.
  induction events as [| value rest IH]; intros w Hnet; cbn [reportEvents map].
  - exists w. rewrite app_nil_r. split; reflexivity.
  - unfold sendRequest.
    destruct (Hnet (length (requests w)) (trackCall h value))
      as (status & body & Hresp).
    unfold trackCall in Hresp. rewrite Hresp.
    match goal with
    | |- context [reportEvents net h rest ?w1] =>
        destruct (IH w1 Hnet) as (w' & -> & Hreq)
    end.
    exists w'. split; [reflexivity |]. rewrite Hreq.
    destruct (isDebug h); rewrite ?debug_requests; cbn [requests record_call];
      rewrite <- app_assoc; reflexivity.
Qed.

(** *** Panics *)

Lemma iteration_returns_nil net h st s w err w' :
  iteration net h st s w = ReturnsErr err w' -> err = None.
Proof.
  destruct s as [| event |]; cbn [iteration].
  - destruct (0 <? _); [| congruence].
    destruct (reportEventsToUmami _ _ _ _) as [[] ?]; congruence.
  - destruct (batchSize h <=? _); [| discriminate].
    destruct (reportEventsToUmami _ _ _ _) as [[] ?]; discriminate.
  - destruct (armed (timeout st)); [| discriminate].
    destruct (0 <? _); [| discriminate].
    destruct (reportEventsToUmami _ _ _ _) as [[] ?]; discriminate.
Qed.

Lemma feederLoop_returns_nil net h sel : forall st w err rest w',
  feederLoop net h sel st w = Done err rest w' -> err = None.
Proof.
  induction sel as [| s sel IH]; intros st w err rest w'; cbn [feederLoop];
    [discriminate |].
  destruct (iteration net h st s w) as [st1 w1 | err1 w1 | v w1 |] eqn:Hit;
    try discriminate.
  - apply IH.
  - intros [= <- _ _]. eapply iteration_returns_nil. exact Hit.
Qed.

(** The error that [umamiEventFeeder] returns is always [nil], also when
    a panic was recovered. *)
Lemma umamiEventFeeder_returns_nil net h sel w err rest w' :
  umamiEventFeeder net h sel w = Done err rest w' -> err = None.
Proof.
  unfold umamiEventFeeder.
  destruct (Runtime.makeslice_ok (batchSize h));
    [| intros [= <- _ _]; reflexivity].
  destruct (feederLoop _ _ _ _ _) as [err1 rest1 w1 | v rest1 w1 | |] eqn:Hrun;
    try discriminate.
  - intros [= <- _ _]. eapply feederLoop_returns_nil. exact Hrun.
  - intros [= <- _ _]. reflexivity.
Qed.

(** A panic never leaves [umamiEventFeeder]. *)
Lemma umamiEventFeeder_recovers net h sel w v rest w' :
  umamiEventFeeder net h sel w <> Unwinding v rest w'.
Proof.
  unfold umamiEventFeeder.
  destruct (Runtime.makeslice_ok (batchSize h)); [| discriminate].
  destruct (feederLoop _ _ _ _ _); discriminate.
Qed.

(** Hence the loop of [startWorker] never comes to its second round. *)
Lemma startWorker_single_round fuel net h sel w :
  startWorker (S fuel) net h sel w = startWorker 1 net h sel w.
Proof.
  cbn [startWorker].
  destruct (umamiEventFeeder net h sel w) as [[err |] rest w1 | | |] eqn:Hrun;
    try reflexivity.
  apply umamiEventFeeder_returns_nil in Hrun. discriminate.
Qed.

End Batching.

Lemma batching_iteration_witness :
  let second := Duration.Second in
  let idle := {| batch := []; timeout := NewTimer second |} in
  let half := {| batch := [envelope sampleEvent];
                 timeout := NewTimer second |} in
  let sent (n : nat) :=
    {| stdout := [];
       requests := repeat (trackCall sampleFeeder (envelope sampleEvent)) n;
       afters := []; handed := [] |} in
  iteration healthy sampleFeeder half (QueueEvent sampleEvent) world0
  = Loops idle (sent 2%nat)
  /\ iteration healthy sampleFeeder idle (QueueEvent sampleEvent) world0
     = Loops half world0
  /\ iteration healthy sampleFeeder half TimeoutC world0
     = Loops idle (sent 1%nat)
  /\ iteration healthy sampleFeeder idle TimeoutC world0 = Loops idle world0
  /\ iteration healthy sampleFeeder half CtxDone world0
     = ReturnsErr None (sent 1%nat)
  /\ iteration healthy sampleFeeder idle CtxDone world0
     = ReturnsErr None world0.
Proof.
  intros second idle half sent.
  destruct (batching_iteration healthy sampleFeeder half world0)
    as (Hsize & _ & Htimer & _ & Hcancel & _).
  destruct (batching_iteration healthy sampleFeeder idle world0)
    as (_ & Hgrow & _ & Hrestart & _ & Hquit).
  split; [| split; [| split; [| split; [| split]]]].
  - apply (Hsize sampleEvent (sent 2%nat)); [cbn; lia | reflexivity].
  - apply (Hgrow sampleEvent). cbn. lia.
  - apply (Htimer (sent 1%nat)); [reflexivity | discriminate | reflexivity].
  - apply Hrestart; reflexivity.
  - apply (Hcancel (sent 1%nat)); [discriminate | reflexivity].
  - apply Hquit. reflexivity.
Defined.

(** C1 at a failing input: the batch size is two and the first request
    to the collector panics.  The panic is recovered and logged, but
    [umamiEventFeeder] returns a nil error, so [startWorker] returns
    instead of starting the loop again: the third event and the
    cancellation are left to nobody, and "worker failed" is never
    logged. *)
Theorem worker_ends_at_first_panic :
  startWorker 5 faulty sampleFeeder
    [QueueEvent sampleEvent; QueueEvent sampleEvent; QueueEvent sampleEvent;
     CtxDone] world0
  = Some (Done tt [QueueEvent sampleEvent; CtxDone]
            {| stdout :=
                 [{| level := ERR; middlewareName := "rybbit";
                     message :=
                       "panic: runtime error: invalid memory address" |}];
               requests :=
                 [{| call_url := "http://rybbit.example/api/track";
                     call_body := VEvent sampleEvent |}];
               afters := [];
               handed := [] |}).
Proof. reflexivity. Qed.

(** ** The delivery client *)

Section Delivery.

Context `{NetIP} `{Regex} `{Helpers}.

Lemma reportEvents_requests net h events : forall w,
  exists sent rest,
    events = sent ++ rest
    /\ requests (snd (reportEvents net h events w))
       = requests w ++ map (trackCall h) sent.
Proof.
  induction events as [| value events IH]; intros w; cbn [reportEvents].
  - exists [], []. split; [reflexivity |].
    cbn [map snd]. symmetry. apply app_nil_r.
  - unfold sendRequest.
    destruct (net _ _) as [status body | msg | v].
    + match goal with
      | |- context [reportEvents net h events ?w1] =>
          destruct (IH w1) as (sent & rest & -> & Hreq)
      end.
      exists (value :: sent), rest. split; [reflexivity |].
      rewrite Hreq. destruct (isDebug h); rewrite ?debug_requests;
        cbn [requests record_call map]; rewrite <- app_assoc; reflexivity.
    + exists [value], events. split; [reflexivity |].
      cbn [snd error print requests record_call map]. reflexivity.
    + exists [value], events. split; reflexivity.
Qed.

Lemma reportEvents_stops net h events : forall w,
  exists sent rest : list SendBody,
    events = sent ++ rest
    /\ requests (snd (reportEvents net h events w))
       = requests w ++ map (trackCall h) sent
    /\ (forall i value,
          sent !! i = Some value ->
          (S i < length sent)%nat ->
          exists status body,
            net (length (requests w) + i)%nat (trackCall h value)
            = Responded status body)
    /\ (rest <> [] ->
        exists value,
          sent !! (length sent - 1)%nat = Some value
          /\ forall status body,
               net (length (requests w) + (length sent - 1))%nat
                   (trackCall h value)
               <> Responded status body).
Proof.
  induction events as [| value events IH]; intros w; cbn [reportEvents].
  - exists [], []. split; [reflexivity |].
    split; [cbn [map snd]; symmetry; apply app_nil_r |].
    split; [intros i v [=] | intros Hrest; contradiction].
  - unfold sendRequest. fold (trackCall h value).
    destruct (net (length (requests w)) (trackCall h value))
      as [status body | msg | v] eqn:Hnet.
    + match goal with
      | |- context [reportEvents net h events ?w1] =>
          assert (Hreq1 : requests w1 = requests w ++ [trackCall h value])
            by (destruct (isDebug h); rewrite ?debug_requests; reflexivity);
          destruct (IH w1) as (sent & rest & -> & Hreq & Hbefore & Hlast)
      end.
      rewrite Hreq1, length_app in Hbefore, Hlast. cbn [length] in Hbefore, Hlast.
      exists (value :: sent), rest. split; [reflexivity |].
      split; [rewrite Hreq, Hreq1, <- app_assoc; reflexivity |].
      split.
      * intros [| i] v Hv Hi; cbn in Hv, Hi.
        -- injection Hv as <-. rewrite Nat.add_0_r. eauto.
        -- destruct (Hbefore i v Hv ltac:(lia)) as (st & b & Hok).
           exists st, b. rewrite <- Hok. f_equal. lia.
      * intros Hrest. destruct (Hlast Hrest) as (v & Hv & Hbad).
        destruct sent as [| s0 sent]; [discriminate |].
        exists v.
        replace (length (value :: s0 :: sent) - 1)%nat
          with (S (length (s0 :: sent) - 1)) by (cbn [length]; lia).
        split; [exact Hv |]. intros st b Hok. apply (Hbad st b).
        rewrite <- Hok. f_equal. lia.
    + exists [value], events. split; [reflexivity |].
      split; [reflexivity |]. split; [intros i x _ Hi; cbn in Hi; lia |].
      intros _. exists value. split; [reflexivity |].
      cbn [length]. rewrite Nat.sub_diag, Nat.add_0_r, Hnet. discriminate.
    + exists [value], events. split; [reflexivity |].
      split; [reflexivity |]. split; [intros i x _ Hi; cbn in Hi; lia |].
      intros _. exists value. split; [reflexivity |].
      cbn [length]. rewrite Nat.sub_diag, Nat.add_0_r, Hnet. discriminate.
Qed.

(** C4, as the code has it: the requests of a flush go, in the order of
    the batch, to [{host}/api/track], and the body of each is the event
    itself, the payload of the element, not the element with its type
    tag.  The flush stops at the first request that is not answered:
    the elements sent are an initial part of the batch, every request
    but the last was answered, and when elements are left over the last
    request was not. *)
Theorem delivery_posts_the_event net h events w :
  (exists sent rest : list SendBody,
     events = sent ++ rest
     /\ requests (snd (reportEventsToUmami net h events w))
        = requests w ++ map (trackCall h) sent
     /\ (forall i value,
           sent !! i = Some value ->
           (S i < length sent)%nat ->
           exists status body,
             net (length (requests w) + i)%nat (trackCall h value)
             = Responded status body)
     /\ (rest <> [] ->
         exists value,
           sent !! (length sent - 1)%nat = Some value
           /\ forall status body,
                net (length (requests w) + (length sent - 1))%nat
                    (trackCall h value)
                <> Responded status body))
  /\ forall value,
       http_request (trackCall h value)
       = {| http_method := "POST";
            http_url := host h +:+ "/api/track";
            http_body := Some (marshalRybbitEvent (Payload value)) |}.
Proof.
  split; [| reflexivity].
  unfold reportEventsToUmami.
  destruct (reportEvents_stops net h events
              (debug h ("reporting " +:+ itoa (Z.of_nat (length events))
                        +:+ " events") w))
    as (sent & rest & Hsplit & Hreq & Hbefore & Hlast).
  rewrite debug_requests in Hreq, Hbefore, Hlast.
  exists sent, rest. repeat (split; [assumption |]). exact Hlast.
Qed.

End Delivery.

Lemma delivery_posts_the_event_witness :
  exists sent rest : list SendBody,
    repeat (envelope sampleEvent) 5 = sent ++ rest
    /\ length sent = 3%nat
    /\ length rest = 2%nat
    /\ requests (snd (reportEventsToUmami failsThird sampleFeeder
                        (repeat (envelope sampleEvent) 5) world0))
       = map (trackCall sampleFeeder) sent
    /\ (exists status body,
          failsThird 1%nat (trackCall sampleFeeder (envelope sampleEvent))
          = Responded status body)
    /\ exists value,
         sent !! 2%nat = Some value
         /\ forall status body,
              failsThird 2%nat (trackCall sampleFeeder value)
              <> Responded status body.
Proof.
  destruct (delivery_posts_the_event failsThird sampleFeeder
              (repeat (envelope sampleEvent) 5) world0)
    as ((sent & rest & Hsplit & Hreq & Hbefore & Hlast) & _).
  assert (Hsent : length sent = 3%nat).
  { apply (f_equal (@length Call)) in Hreq.
    rewrite length_app, length_map in Hreq. exact (eq_sym Hreq). }
  assert (Hrest : length rest = 2%nat).
  { apply (f_equal (@length SendBody)) in Hsplit.
    rewrite length_app, Hsent in Hsplit. cbn in Hsplit. lia. }
  exists sent, rest.
  split; [exact Hsplit |]. split; [exact Hsent |]. split; [exact Hrest |].
  split; [exact Hreq |].
  split.
  - assert (Hsecond : sent !! 1%nat = Some (envelope sampleEvent)).
    { destruct sent as [| a [| b sent]]; try discriminate Hsent.
      cbn in Hsplit. injection Hsplit as _ <- _. reflexivity. }
    apply (Hbefore 1%nat _ Hsecond). rewrite Hsent. lia.
  - destruct Hlast as (value & Hvalue & Hfails).
    + intros ->. discriminate Hrest.
    + rewrite Hsent in Hvalue, Hfails. exists value.
      split; [exact Hvalue | exact Hfails].
Defined.

(** C4 as stated fails: the request for a batch of one event carries the
    event, whose JSON has no member "payload". *)
Lemma delivery_body_is_not_the_envelope :
  let w := snd (reportEventsToUmami healthy sampleFeeder
                  [envelope sampleEvent] world0) in
  map http_request (requests w)
  = [{| http_method := "POST";
        http_url := "http://rybbit.example/api/track";
        http_body :=
          Some (JObject [("api_key", JString "rb_key");
                         ("site_id", JString "1");
                         ("type", JString "pageview");
                         ("pathname", JString "/index.html");
                         ("hostname", JString "example.com");
                         ("ip_address", JString "192.0.2.7");
                         ("user_agent", JString "curl/8")]) |}]
  /\ map http_body (map http_request (requests w))
     <> [Some (marshalSendBody (envelope sampleEvent))].
Proof. split; [reflexivity | discriminate]. Qed.

(** ** The event queue *)

Section Queue.

Context `{NetIP} `{Regex} `{Helpers}.

Lemma chan_trysend_bounded c e c' :
  chan_len c <= cap c ->
  chan_trysend c e = SentDirect c' \/ chan_trysend c e = SentBuffered c' ->
  chan_len c' <= cap c' /\ cap c' = cap c.
Proof.
  unfold chan_trysend, chan_len. intros Hinv.
  destruct (recvq c).
  - intros [[= <-] | [=]]. cbn. lia.
  - destruct (Z.ltb_spec (Z.of_nat (length (buf c))) (cap c)) as [Hlt | Hge].
    + intros [[=] | [= <-]]. cbn [buf cap]. rewrite length_app, Nat2Z.inj_add.
      cbn. lia.
    + intros [[=] | [=]].
Qed.

Lemma chan_recv_bounded c e c' :
  chan_len c <= cap c -> chan_recv c = Some (e, c') ->
  chan_len c' <= cap c' /\ cap c' = cap c.
Proof.
  unfold chan_recv, chan_len. destruct (buf c) as [| x rest]; [discriminate |].
  intros Hinv [= _ <-]. cbn [buf cap length] in *. lia.
Qed.

Lemma chan_park_bounded c :
  chan_len c <= cap c ->
  chan_len (chan_park c) <= cap (chan_park c) /\ cap (chan_park c) = cap c.
Proof.
  unfold chan_park, chan_len. destruct (buf c) as [| x rest] eqn:Hbuf;
    [| rewrite Hbuf; lia].
  cbn. lia.
Qed.

Lemma chan_trysend_full c e :
  recvq c = false -> cap c <= chan_len c -> chan_trysend c e = NotSent.
Proof.
  unfold chan_trysend. intros -> Hfull.
  destruct (Z.ltb_spec (chan_len c) (cap c)); [lia | reflexivity].
Qed.

Lemma submitToFeed_bounded h req code w :
  chan_len (queue h) <= cap (queue h) ->
  chan_len (queue (fst (submitToFeed h req code w)))
  <= cap (queue (fst (submitToFeed h req code w)))
  /\ cap (queue (fst (submitToFeed h req code w))) = cap (queue h).
Proof.
  intros Hinv. unfold submitToFeed.
  destruct (websites h !! _) as [websiteId |]; [| cbn; lia].
  destruct (chan_trysend (queue h) _) as [q | q |] eqn:Hsend; cbn [fst];
    [| | lia].
  - destruct h; cbn [queue set_queue] in *.
    eapply chan_trysend_bounded; eauto.
  - destruct h; cbn [queue set_queue] in *.
    eapply chan_trysend_bounded; eauto.
Qed.

Lemma shouldTrackStatus_accepted h code w :
  accepted h code -> shouldTrackStatus h code w = (true, w).
Proof.
  unfold accepted, shouldTrackStatus. intros [Hlt | Herr].
  - destruct (Z.leb_spec 400 code); [lia | reflexivity].
  - rewrite Herr. destruct (400 <=? code); reflexivity.
Qed.

(** C7: an attempt to enqueue is a total function of the state, it keeps
    the queue within the capacity that [New] gave it, and on a full
    queue (no free slot, no receiver waiting) it leaves the plugin as it
    was and logs one error; [WriteHeader], its caller, then goes on to
    the wrapped writer without a second attempt. *)
Theorem enqueue_is_bounded_and_drops h req code w :
  (forall config name_ w0 w1 launched,
     New config name_ w0 = Some (h, w1, launched) ->
     chan_len (queue h) <= cap (queue h)
     /\ cap (queue h) = QueueSize config)
  /\ (chan_len (queue h) <= cap (queue h) ->
      chan_len (queue (fst (submitToFeed h req code w)))
      <= cap (queue (fst (submitToFeed h req code w)))
      /\ cap (queue (fst (submitToFeed h req code w))) = cap (queue h))
  /\ (forall websiteId,
        websites h !! parseDomainFromHost (Host req) = Some websiteId ->
        recvq (queue h) = false ->
        cap (queue h) <= chan_len (queue h) ->
        submitToFeed h req code w
        = (h, error h "failed to submit event: queue full" w)
        /\ forall rw,
             request rw = req ->
             accepted h code ->
             WriteHeader rw code h w
             = ({| written := written rw ++ [code]; request := req |},
                h, error h "failed to submit event: queue full" w)).
Proof.
  split; [| split].
  - intros config name_ w0 w1 launched. unfold New, make_chan.
    destruct (Runtime.makechan_ok (QueueSize config)) eqn:Hok;
      [| discriminate].
    apply andb_true_iff in Hok. destruct Hok as [Hpos _].
    apply Z.leb_le in Hpos.
    cbn [isDisabled]. destruct (negb (Disabled config));
      intros [= <- _ _]; cbn; unfold chan_len; cbn; lia.
  - apply submitToFeed_bounded.
  - intros websiteId Hsite Hrecv Hfull.
    assert (Hdrop : submitToFeed h req code w
                    = (h, error h "failed to submit event: queue full" w)).
    { unfold submitToFeed. rewrite Hsite.
      rewrite chan_trysend_full by assumption. reflexivity. }
    split; [exact Hdrop |].
    intros rw Hreq Hacc. unfold WriteHeader.
    rewrite (shouldTrackStatus_accepted _ _ _ Hacc), Hreq, Hdrop.
    reflexivity.
Qed.

Lemma submitted_set_queue q h e : submitted (set_queue q h) e <-> submitted h e.
Proof. reflexivity. Qed.

(** The requests that a flush adds are those of elements of the batch. *)
Lemma reportEventsToUmami_calls net h events w c :
  In c (requests (snd (reportEventsToUmami net h events w))) ->
  In c (requests w) \/ exists value, In value events /\ c = trackCall h value.
Proof.
  unfold reportEventsToUmami.
  destruct (reportEvents_requests net h events
              (debug h ("reporting " +:+ itoa (Z.of_nat (length events))
                        +:+ " events") w))
    as (sent & rest & -> & ->).
  rewrite debug_requests. intros Hin. apply in_app_or in Hin.
  destruct Hin as [Hold | Hnew]; [left; exact Hold |].
  right. apply in_map_iff in Hnew. destruct Hnew as (value & <- & Hvalue).
  exists value. split; [apply in_or_app; left; exact Hvalue | reflexivity].
Qed.

(** What the worker holds and sends, when all it receives was submitted. *)
Lemma iteration_submitted net h st s w :
  Forall (fun value => exists e, value = envelope e /\ submitted h e)
         (batch st) ->
  Forall (submitted h) (events_of [s]) ->
  match iteration net h st s w with
  | Loops st' w' =>
      Forall (fun value => exists e, value = envelope e /\ submitted h e)
             (batch st')
      /\ forall c, In c (requests w') ->
                   In c (requests w)
                   \/ exists e, c = trackCall h (envelope e) /\ submitted h e
  | ReturnsErr _ w' | Panics _ w' =>
      forall c, In c (requests w') ->
                In c (requests w)
                \/ exists e, c = trackCall h (envelope e) /\ submitted h e
  | NotReady => True
  end.
Proof.
  intros Hbatch Hs.
  assert (Hflush : forall events w0 c,
            Forall (fun value => exists e, value = envelope e /\ submitted h e)
                   events ->
            In c (requests (snd (reportEventsToUmami net h events w0))) ->
            In c (requests w0)
            \/ exists e, c = trackCall h (envelope e) /\ submitted h e).
  { intros events w0 c Hall Hin.
    apply reportEventsToUmami_calls in Hin.
    destruct Hin as [Hold | (value & Hvalue & ->)]; [left; exact Hold |].
    right. rewrite List.Forall_forall in Hall.
    destruct (Hall value Hvalue) as (e & -> & He). eauto. }
  destruct s as [| event |]; cbn [iteration].
  - destruct (0 <? _).
    + pose proof (Hflush (batch st)
                    (debug h "worker shutting down (canceled)" w)) as Hf.
      destruct (reportEventsToUmami _ _ _ _) as [[] w']; cbn [snd] in Hf;
        intros c Hc; specialize (Hf c Hbatch Hc);
        rewrite debug_requests in Hf; exact Hf.
    + intros c Hc. rewrite debug_requests in Hc. left. exact Hc.
  - assert (Hgrown : Forall (fun value => exists e, value = envelope e
                                          /\ submitted h e)
                            (batch st ++ [envelope event])).
    { apply Forall_app. split; [exact Hbatch |].
      constructor; [| constructor]. exists event. split; [reflexivity |].
      cbn [events_of] in Hs. inversion Hs. assumption. }
    destruct (batchSize h <=? _).
    + pose proof (Hflush (batch st ++ [envelope event]) w) as Hf.
      destruct (reportEventsToUmami _ _ _ _) as [[] w']; cbn [snd] in Hf.
      * split; [constructor |]. intros c Hc. exact (Hf c Hgrown Hc).
      * intros c Hc. exact (Hf c Hgrown Hc).
    + split; [exact Hgrown |]. intros c Hc. left. exact Hc.
  - destruct (armed (timeout st)); [| exact I].
    destruct (0 <? _).
    + pose proof (Hflush (batch st) w) as Hf.
      destruct (reportEventsToUmami _ _ _ _) as [[] w']; cbn [snd] in Hf.
      * split; [constructor |]. intros c Hc. exact (Hf c Hbatch Hc).
      * intros c Hc. exact (Hf c Hbatch Hc).
    + split; [exact Hbatch |]. intros c Hc. left. exact Hc.
Qed.

Lemma feederLoop_submitted net h sel : forall st w,
  Forall (fun value => exists e, value = envelope e /\ submitted h e)
         (batch st) ->
  Forall (submitted h) (events_of sel) ->
  forall c,
    In c (requests (run_world (feederLoop net h sel st w) w)) ->
    In c (requests w)
    \/ exists e, c = trackCall h (envelope e) /\ submitted h e.
Proof.
  induction sel as [| s rest IH]; intros st w Hbatch Hsel c;
    cbn [feederLoop].
  - cbn [run_world]. intros Hc. left. exact Hc.
  - assert (Hhead : Forall (submitted h) (events_of [s])
                    /\ Forall (submitted h) (events_of rest)).
    { destruct s; cbn [events_of] in *;
        [split; [constructor | exact Hsel]
        | inversion Hsel; subst; split;
          [constructor; [assumption | constructor] | assumption]
        | split; [constructor | exact Hsel]]. }
    destruct Hhead as (Hs & Hrest).
    pose proof (iteration_submitted net h st s w Hbatch Hs) as Hstep.
    destruct (iteration net h st s w) as [st1 w1 | err w1 | v w1 |];
      cbn [run_world].
    + destruct Hstep as (Hbatch1 & Hcalls1). intros Hc.
      pose proof (IH st1 w1 Hbatch1 Hrest c) as Hrun.
      destruct (feederLoop net h rest st1 w1); cbn [run_world] in *;
        try (destruct (Hrun Hc) as [Hold | Hnew];
             [apply Hcalls1; exact Hold | right; exact Hnew]).
      left. exact Hc.
    + apply Hstep.
    + apply Hstep.
    + intros Hc. left. exact Hc.
Qed.

(** C10, as the code has it: [submitToFeed] looks the hostname of the
    request up itself.  Without an entry it logs an error and enqueues
    nothing.  With an entry, the event it makes for the request carries
    the hostname of the request and that entry, be it empty or not, as
    its site identifier, and this event is put at the end of the queue,
    or handed to the waiting worker, or dropped with an error when the
    queue is full; nothing else changes.  So every event in the queue or
    handed over is one made for a request with an entry, and a worker
    that receives such events sends only requests that carry one of
    them; and the site identifier of such an event is the entry of its
    hostname. *)
Theorem enqueued_site_comes_from_map h req code w :
  (websites h !! parseDomainFromHost (Host req) = None ->
   submitToFeed h req code w
   = (h, error h ("tracking skipped, site-id is unknown: "
                  +:+ parseDomainFromHost (Host req)) w))
  /\ (forall websiteId,
        websites h !! parseDomainFromHost (Host req) = Some websiteId ->
        let e := newEvent h req (parseDomainFromHost (Host req)) websiteId in
        SiteID e = websiteId
        /\ Hostname e = parseDomainFromHost (Host req)
        /\ ((fst (submitToFeed h req code w)
             = set_queue {| buf := buf (queue h) ++ [e];
                            cap := cap (queue h); recvq := false |} h
             /\ snd (submitToFeed h req code w) = w)
            \/ (fst (submitToFeed h req code w)
                = set_queue {| buf := buf (queue h);
                               cap := cap (queue h); recvq := false |} h
                /\ snd (submitToFeed h req code w) = record_handed e w)
            \/ submitToFeed h req code w
               = (h, error h "failed to submit event: queue full" w)))
  /\ (Forall (submitted h) (buf (queue h)) ->
      Forall (submitted h) (handed w) ->
      Forall (submitted (fst (submitToFeed h req code w)))
             (buf (queue (fst (submitToFeed h req code w))))
      /\ Forall (submitted (fst (submitToFeed h req code w)))
                (handed (snd (submitToFeed h req code w))))
  /\ (forall net sel w0 c,
        Forall (submitted h) (events_of sel) ->
        In c (requests (run_world (umamiEventFeeder net h sel w0) w0)) ->
        In c (requests w0)
        \/ exists e, c = trackCall h (envelope e) /\ submitted h e)
  /\ (forall e, submitted h e -> site_known h e).
Proof.
  split; [| split; [| split; [| split]]].
  - intros Hnone. unfold submitToFeed. rewrite Hnone. reflexivity.
  - intros websiteId Hsite e. split; [reflexivity |]. split; [reflexivity |].
    unfold submitToFeed. rewrite Hsite. fold e. unfold chan_trysend.
    destruct (recvq (queue h));
      [| destruct (chan_len (queue h) <? cap (queue h))]; cbn [fst snd].
    + right; left. split; reflexivity.
    + left. split; reflexivity.
    + right; right. reflexivity.
  - intros Hbuf Hhanded. unfold submitToFeed.
    destruct (websites h !! parseDomainFromHost (Host req))
      as [websiteId |] eqn:Hsite; [| split; assumption].
    assert (Hnew : submitted h
                     (newEvent h req (parseDomainFromHost (Host req))
                               websiteId))
      by (exists req, websiteId; split; [exact Hsite | reflexivity]).
    unfold chan_trysend.
    destruct (recvq (queue h));
      [| destruct (chan_len (queue h) <? cap (queue h))];
      cbn [fst snd queue set_queue buf handed record_handed].
    + split; [exact Hbuf |]. apply Forall_app. split; [exact Hhanded |].
      constructor; [exact Hnew | constructor].
    + split; [| exact Hhanded]. apply Forall_app. split; [exact Hbuf |].
      constructor; [exact Hnew | constructor].
    + split; assumption.
  - intros net sel w0 c Hsel. unfold umamiEventFeeder.
    destruct (Runtime.makeslice_ok (batchSize h)).
    + pose proof (feederLoop_submitted net h sel
                    {| batch := []; timeout := NewTimer (batchMaxWait h) |}
                    w0 (List.Forall_nil _) Hsel c) as Hrun.
      destruct (feederLoop _ _ _ _ _); cbn [run_world] in *;
        exact Hrun.
    + cbn [run_world]. intros Hc. left. exact Hc.
  - intros e (r & websiteId & Hsite & ->). exact Hsite.
Qed.

(** *** The response writer *)



End Queue.

Lemma enqueue_is_bounded_and_drops_witness :
  (chan_len (queue freshFeeder) <= cap (queue freshFeeder)
   /\ cap (queue freshFeeder) = QueueSize sampleConfig)
  /\ (chan_len (queue (fst (submitToFeed sampleFeeder sampleRequest 200 world0)))
      <= cap (queue (fst (submitToFeed sampleFeeder sampleRequest 200 world0)))
      /\ cap (queue (fst (submitToFeed sampleFeeder sampleRequest 200 world0)))
         = cap (queue sampleFeeder))
  /\ submitToFeed fullFeeder sampleRequest 200 world0
     = (fullFeeder, error fullFeeder "failed to submit event: queue full" world0)
  /\ WriteHeader {| written := []; request := sampleRequest |} 200
                 fullFeeder world0
     = ({| written := [200]; request := sampleRequest |}, fullFeeder,
        error fullFeeder "failed to submit event: queue full" world0).
Proof.
  split; [| split].
  - destruct (enqueue_is_bounded_and_drops freshFeeder sampleRequest 200 world0)
      as (Hnew & _).
    apply (Hnew sampleConfig "rybbit" world0 world0 true). reflexivity.
  - destruct (enqueue_is_bounded_and_drops sampleFeeder sampleRequest 200 world0)
      as (_ & Hkeep & _).
    apply Hkeep. vm_compute. discriminate.
  - destruct (enqueue_is_bounded_and_drops fullFeeder sampleRequest 200 world0)
      as (_ & _ & Hfull).
    destruct (Hfull "1") as (Hdrop & Hcaller);
      [reflexivity | reflexivity | vm_compute; discriminate |].
    split; [exact Hdrop |].
    apply (Hcaller {| written := []; request := sampleRequest |});
      [reflexivity | left; lia].
Defined.

Lemma enqueued_site_comes_from_map_witness :
  submitToFeed sampleFeeder strangerRequest 200 world0
  = (sampleFeeder,
     error sampleFeeder "tracking skipped, site-id is unknown: other.com"
           world0)
  /\ submitToFeed sampleFeeder sampleRequest 200 world0
     = (set_queue {| buf := [sampleEvent]; cap := 2; recvq := false |}
                  sampleFeeder, world0)
  /\ Forall (submitted (fst (submitToFeed sampleFeeder sampleRequest 200
                                          world0)))
            (buf (queue (fst (submitToFeed sampleFeeder sampleRequest 200
                                           world0))))
  /\ requests (run_world (umamiEventFeeder healthy sampleFeeder
                            [QueueEvent sampleEvent; CtxDone] world0) world0)
     = [trackCall sampleFeeder (envelope sampleEvent)]
  /\ (exists e, trackCall sampleFeeder (envelope sampleEvent)
                = trackCall sampleFeeder (envelope e)
                /\ submitted sampleFeeder e)
  /\ site_known sampleFeeder sampleEvent.
Proof.
  assert (Hmade : submitted sampleFeeder sampleEvent)
    by (exists sampleRequest, "1"; split; reflexivity).
  destruct (enqueued_site_comes_from_map sampleFeeder strangerRequest 200
              world0) as (Hnone & _).
  destruct (enqueued_site_comes_from_map sampleFeeder sampleRequest 200
              world0) as (_ & Hsome & Hkept & Hsent & Hknown).
  split; [apply Hnone; reflexivity |].
  split.
  { destruct (Hsome "1" eq_refl) as (_ & _ & [(Hq & Hw) | [(Hq & _) | Hdrop]]).
    - rewrite (surjective_pairing (submitToFeed _ _ _ _)), Hq, Hw.
      reflexivity.
    - vm_compute in Hq. discriminate Hq.
    - vm_compute in Hdrop. discriminate Hdrop. }
  split; [apply Hkept; constructor |].
  split; [reflexivity |].
  split; [| apply Hknown; exact Hmade].
  destruct (Hsent healthy [QueueEvent sampleEvent; CtxDone] world0
              (trackCall sampleFeeder (envelope sampleEvent)))
    as [Hold | Hnew].
  - constructor; [exact Hmade | constructor].
  - left. reflexivity.
  - destruct Hold.
  - exact Hnew.
Defined.

(** C10 as stated fails: the map may hold an empty identifier, and the
    event for that host is enqueued with it. *)
Lemma empty_site_id_is_enqueued :
  websites blankSiteFeeder !! "example.com" = Some ""
  /\ exists e,
       buf (queue (fst (submitToFeed blankSiteFeeder sampleRequest 200 world0)))
       = [e]
       /\ Hostname e = "example.com"
       /\ SiteID e = "".
Proof. split; [reflexivity |]. eexists. repeat split. Qed.



(** ** The filters *)

Section Filters.

Context `{NetIP} `{Regex} `{Helpers}.

Lemma shouldTrack_checkIP h req w b w' :
  checkIP h req w = Returns b w' -> shouldTrack h req w = (b, w').
Proof. unfold shouldTrack. intros ->. reflexivity. Qed.

Lemma writeHeaders_written codes : forall rw h w,
  written (fst (fst (writeHeaders rw codes h w))) = written rw ++ codes.
Proof.
  induction codes as [| code codes IH]; intros rw h w; cbn [writeHeaders].
  - cbn. symmetry. apply app_nil_r.
  - unfold WriteHeader. destruct (shouldTrackStatus h code w) as [report w1].
    destruct (if report then submitToFeed h (request rw) code w1 else (h, w1))
      as [h2 w2].
    rewrite IH. cbn [written]. rewrite <- app_assoc. reflexivity.
Qed.

(** The header writes of the next handler reach the writer of the proxy
    whatever the plugin decides. *)
Lemma ServeHTTP_forwards next h req w :
  fst (fst (ServeHTTP next h req w)) = next req.
Proof.
  unfold ServeHTTP. destruct (isDisabled h); [reflexivity |].
  destruct (shouldTrack h req w) as [[|] w1]; [| reflexivity].
  pose proof (writeHeaders_written (next req)
                {| written := []; request := req |} h w1) as Hw.
  destruct (writeHeaders _ _ _ _) as [[rw h2] w2]. exact Hw.
Qed.

(** A request that the filters exclude leaves the plugin as it was. *)
Lemma ServeHTTP_excluded next h req w w' :
  shouldTrack h req w = (false, w') ->
  snd (fst (ServeHTTP next h req w)) = h.
Proof.
  unfold ServeHTTP. intros Hno. destruct (isDisabled h); [reflexivity |].
  rewrite Hno. reflexivity.
Qed.

(** C9, as the code has it.  With ignored prefixes configured, the
    address is read from the configured header, or from the remote
    address when the header is empty.  If it does not parse, the request
    is not tracked; if it parses, the address check excludes the request
    exactly when one of the prefixes contains the address.  An excluded
    request is served like any other: its header writes reach the writer
    of the proxy and the plugin is left as it was.  Without ignored
    prefixes the check does nothing: the address is not read, so that
    two requests that differ only in their addresses get the same
    answer, parsable or not. *)
Theorem ip_filter_fails_closed h req w :
  (ignorePrefixes h <> [] ->
   (Header_Get req (headerIp h) <> "" ->
    requestIp h req = Header_Get req (headerIp h))
   /\ (Header_Get req (headerIp h) = "" -> requestIp h req = RemoteAddr req)
   /\ (forall msg,
         ParseAddr (requestIp h req) = Err msg ->
         fst (shouldTrack h req w) = false
         /\ forall next,
              fst (fst (ServeHTTP next h req w)) = next req
              /\ snd (fst (ServeHTTP next h req w)) = h)
   /\ (forall ip,
         ParseAddr (requestIp h req) = Ok ip ->
         ((exists w', checkIP h req w = Returns false w')
          <-> exists prefix,
                In prefix (ignorePrefixes h)
                /\ Prefix_Contains prefix ip = true)
         /\ ((exists prefix,
                In prefix (ignorePrefixes h)
                /\ Prefix_Contains prefix ip = true) ->
             fst (shouldTrack h req w) = false
             /\ forall next,
                  fst (fst (ServeHTTP next h req w)) = next req
                  /\ snd (fst (ServeHTTP next h req w)) = h)))
  /\ (ignorePrefixes h = [] ->
      checkIP h req w = FallsThrough w
      /\ forall req',
           Host req' = Host req ->
           Request_UserAgent req' = Request_UserAgent req ->
           URL_Path req' = URL_Path req ->
           URL_String req' = URL_String req ->
           shouldTrack h req' w = shouldTrack h req w).
Proof.
  split; [intros Hconfigured |].
  2: { intros Hnone. split; [unfold checkIP; rewrite Hnone; reflexivity |].
       intros req' Hhost Hua Hpath Hurl.
       unfold shouldTrack, checkIP, checkUserAgent, checkURL, checkResource,
         checkWebsite.
       rewrite Hnone, Hhost, Hua, Hpath, Hurl. reflexivity. }
  assert (Hserved : forall w', checkIP h req w = Returns false w' ->
            fst (shouldTrack h req w) = false
            /\ forall next,
                 fst (fst (ServeHTTP next h req w)) = next req
                 /\ snd (fst (ServeHTTP next h req w)) = h).
  { intros w' Hcheck. apply shouldTrack_checkIP in Hcheck.
    split; [rewrite Hcheck; reflexivity |].
    intros next. split; [apply ServeHTTP_forwards |].
    eapply ServeHTTP_excluded. exact Hcheck. }
  split; [| split; [| split]].
  - intros Hheader. unfold requestIp.
    destruct (String.eqb_spec (Header_Get req (headerIp h)) "");
      [contradiction | reflexivity].
  - intros Hheader. unfold requestIp. rewrite Hheader. reflexivity.
  - intros msg Hparse. eapply Hserved. unfold checkIP.
    destruct (ignorePrefixes h); [contradiction |].
    rewrite Hparse. reflexivity.
  - intros ip Hparse.
    assert (Hiff : (exists w', checkIP h req w = Returns false w')
                   <-> exists prefix,
                         In prefix (ignorePrefixes h)
                         /\ Prefix_Contains prefix ip = true).
    { unfold checkIP. rewrite Hparse.
      destruct (ignorePrefixes h) as [| p ps] eqn:Hps; [contradiction |].
      rewrite <- existsb_exists.
      destruct (existsb _ (p :: ps)); split.
      - reflexivity.
      - eauto.
      - intros [w' [=]].
      - discriminate. }
    split; [exact Hiff |].
    intros Hin. apply Hiff in Hin. destruct Hin as [w' Hcheck].
    eapply Hserved. exact Hcheck.
Qed.

(** Without ignored prefixes the address is not looked at. *)
Lemma checkIP_unconfigured h req w :
  ignorePrefixes h = [] -> checkIP h req w = FallsThrough w.
Proof. unfold checkIP. intros ->. reflexivity. Qed.

End Filters.

Lemma ip_filter_fails_closed_witness :
  requestIp sampleFeeder insideRequest = "10.1.2.3"
  /\ requestIp sampleFeeder directRequest = "192.0.2.7:51234"
  /\ fst (shouldTrack sampleFeeder garbledRequest world0) = false
  /\ fst (shouldTrack sampleFeeder directRequest world0) = false
  /\ fst (shouldTrack sampleFeeder insideRequest world0) = false
  /\ ((exists w', checkIP sampleFeeder sampleRequest world0 = Returns false w')
      <-> exists prefix,
            In prefix (ignorePrefixes sampleFeeder)
            /\ Prefix_Contains prefix 3221225991 = true)
  /\ shouldTrack openFeeder garbledRequest world0
     = shouldTrack openFeeder directRequest world0.
Proof.
  assert (Hconfigured : ignorePrefixes sampleFeeder <> []) by discriminate.
  split; [| split; [| split; [| split; [| split; [| split]]]]].
  - destruct (ip_filter_fails_closed sampleFeeder insideRequest world0)
      as (Hyes & _). destruct (Hyes Hconfigured) as (Hheader & _).
    etransitivity; [apply Hheader; vm_compute; discriminate | reflexivity].
  - destruct (ip_filter_fails_closed sampleFeeder directRequest world0)
      as (Hyes & _). destruct (Hyes Hconfigured) as (_ & Hremote & _).
    etransitivity; [apply Hremote; reflexivity | reflexivity].
  - destruct (ip_filter_fails_closed sampleFeeder garbledRequest world0)
      as (Hyes & _). destruct (Hyes Hconfigured) as (_ & _ & Hbad & _).
    apply (Hbad "unable to parse IP: unknown"). reflexivity.
  - destruct (ip_filter_fails_closed sampleFeeder directRequest world0)
      as (Hyes & _). destruct (Hyes Hconfigured) as (_ & _ & Hbad & _).
    apply (Hbad "unable to parse IP: 192.0.2.7:51234"). reflexivity.
  - destruct (ip_filter_fails_closed sampleFeeder insideRequest world0)
      as (Hyes & _). destruct (Hyes Hconfigured) as (_ & _ & _ & Hgood).
    destruct (Hgood 167838211) as (_ & Hexcluded); [reflexivity |].
    apply Hexcluded. exists (167772160, 8). split; [left |]; reflexivity.
  - destruct (ip_filter_fails_closed sampleFeeder sampleRequest world0)
      as (Hyes & _). destruct (Hyes Hconfigured) as (_ & _ & _ & Hgood).
    destruct (Hgood 3221225991) as (Hiff & _); [reflexivity |].
    exact Hiff.
  - destruct (ip_filter_fails_closed openFeeder directRequest world0)
      as (_ & Hno). destruct (Hno eq_refl) as (_ & Hsame).
    apply (Hsame garbledRequest); reflexivity.
Defined.

(** C9 as stated fails: with no prefix configured, as in the default
    configuration, a request whose address does not parse is tracked. *)
Lemma unparsable_address_is_tracked :
  ignorePrefixes openFeeder = []
  /\ requestIp openFeeder garbledRequest = "unknown"
  /\ requestIp openFeeder directRequest = "192.0.2.7:51234"
  /\ (exists msg, ParseAddr (requestIp openFeeder garbledRequest) = Err msg)
  /\ (exists msg, ParseAddr (requestIp openFeeder directRequest) = Err msg)
  /\ shouldTrack openFeeder garbledRequest world0 = (true, world0)
  /\ shouldTrack openFeeder directRequest world0 = (true, world0).
Proof.
  repeat (split; [reflexivity |]).
  split; [eexists; reflexivity |]. split; [eexists; reflexivity |].
  split; reflexivity.
Qed.

(** * Further properties of the code *)

(** ** The retry schedule *)

(** The delay never shrinks from one attempt to the next and never
    exceeds one hour. *)
Theorem retry_delay_monotone_bounded (n m : Z) :
  0 <= n <= m ->
  0 <= currentDelay n
  /\ currentDelay n <= currentDelay m
  /\ currentDelay m <= Duration.Hour.
Proof.
  intros Hnm.
  assert (Hval : forall k, 0 <= k ->
            (k = 0 /\ currentDelay k = 0)
            \/ (1 <= k < 8 /\ currentDelay k = Duration.seconds (15 * 2 ^ k))
            \/ (8 <= k /\ currentDelay k = Duration.Hour)).
  { intros k Hk.
    destruct (Z.eq_dec k 0) as [-> | Hk0]; [left; split; reflexivity |].
    destruct (Z_lt_le_dec k 8) as [Hlt | Hge].
    - right; left. split; [lia | apply currentDelay_doubling; lia].
    - right; right. split; [lia | apply currentDelay_capped; lia]. }
  assert (Hpow : forall a b, 1 <= a -> a <= b -> b < 8 ->
            0 < 2 ^ a /\ 2 ^ a <= 2 ^ b /\ 2 ^ b <= 128).
  { intros a b Ha Hab Hb. split; [apply Z.pow_pos_nonneg; lia |].
    split; [apply Z.pow_le_mono_r; lia |].
    change 128 with (2 ^ 7). apply Z.pow_le_mono_r; lia. }
  unfold Duration.seconds, Duration.Hour, Duration.Second in *.
  destruct (Hval n ltac:(lia)) as [[Hn ->] | [[Hn ->] | [Hn ->]]];
    destruct (Hval m ltac:(lia)) as [[Hm ->] | [[Hm ->] | [Hm ->]]];
    try lia.
  - destruct (Hpow m m ltac:(lia) ltac:(lia) ltac:(lia)) as (? & ? & ?). lia.
  - destruct (Hpow n m ltac:(lia) ltac:(lia) ltac:(lia)) as (? & ? & ?).
    destruct (Hpow m m ltac:(lia) ltac:(lia) ltac:(lia)) as (? & ? & ?). lia.
  - destruct (Hpow n n ltac:(lia) ltac:(lia) ltac:(lia)) as (? & ? & ?). lia.
Qed.

Lemma retry_delay_monotone_bounded_witness :
  0 <= currentDelay 5
  /\ currentDelay 5 <= currentDelay 40
  /\ currentDelay 40 <= Duration.Hour.
Proof. apply (retry_delay_monotone_bounded 5 40). lia. Defined.

(** ** The construction of the plugin *)

Section Construction.

Context `{NetIP} `{Regex} `{Helpers}.


(** Between [New] and the moment [retryConnection] enables the plugin,
    every request goes to the next handler with the writer of the proxy:
    nothing is filtered, queued or logged. *)
Theorem fresh_plugin_passes_through config name_ w0 h w1 launched :
  New config name_ w0 = Some (h, w1, launched) ->
  forall next req w, ServeHTTP next h req w = (next req, h, w).
Proof.
  intros Hnew next req w. unfold ServeHTTP.
  replace (isDisabled h) with true; [reflexivity |].
  revert Hnew. unfold New.
  destruct (make_chan (QueueSize config)); [| discriminate].
  cbn [isDisabled]. destruct (Disabled config); cbn [negb];
    intros [= <- _ _]; reflexivity.
Qed.

End Construction.


Lemma fresh_plugin_passes_through_witness :
  ServeHTTP earlyHints freshFeeder sampleRequest world0
  = ([103; 200], freshFeeder, world0).
Proof.
  apply (fresh_plugin_passes_through sampleConfig "rybbit" world0 freshFeeder
           world0 true eq_refl earlyHints sampleRequest world0).
Defined.

(** ** The filters, as a whole *)

Section Admission.

Context `{NetIP} `{Regex} `{Helpers}.

Lemma New_disabled config name_ w h w' launched :
  New config name_ w = Some (h, w', launched) -> isDisabled h = true.
Proof.
  unfold New. destruct (make_chan (QueueSize config)); [| discriminate].
  cbn [isDisabled]. destruct (Disabled config); cbn [negb];
    intros [= <- _ _]; reflexivity.
Qed.

Lemma existsb_none {A : Type} (f : A -> bool) (l : list A) :
  existsb f l = false <-> forall x, In x l -> f x = false.
Proof.
  induction l as [| a l IH]; cbn [existsb In].
  - split; [intros _ x [] | reflexivity].
  - rewrite orb_false_iff, IH. split.
    + intros [Ha Hl] x [<- | Hx]; auto.
    + intros Hall. split; [apply Hall; left; reflexivity |].
      intros x Hx. apply Hall. right. exact Hx.
Qed.

Lemma checkIP_falls_through h req w :
  (exists w', checkIP h req w = FallsThrough w') <-> ip_allowed h req.
Proof.
  unfold checkIP, ip_allowed.
  destruct (ignorePrefixes h) as [| p ps] eqn:Hps.
  - split; [left; reflexivity | eauto].
  - destruct (ParseAddr (requestIp h req)) as [ip | msg].
    + destruct (existsb _ (p :: ps)) eqn:Hex.
      * split; [intros [w' [=]] |].
        intros [[=] | (ip' & [= <-] & Hnone)].
        apply existsb_exists in Hex. destruct Hex as (x & Hx & Htrue).
        rewrite (Hnone x Hx) in Htrue. discriminate.
      * split; [| eauto]. intros _. right. exists ip.
        split; [reflexivity |]. apply existsb_none. exact Hex.
    + split; [intros [w' [=]] |]. intros [[=] | (ip & [=] & _)].
Qed.

Lemma checkIP_world h req w w' :
  checkIP h req w = FallsThrough w' -> w' = w.
Proof.
  unfold checkIP. destruct (ignorePrefixes h); [congruence |].
  destruct (ParseAddr _); [| discriminate].
  destruct (existsb _ _); [discriminate | congruence].
Qed.

(** [shouldTrack] accepts a request exactly when all five checks let it
    through: the address, the user agent, the URL, the resource and the
    website.  An accepted request leaves the world as it was. *)
Theorem shouldTrack_accepts_iff h req w :
  (fst (shouldTrack h req w) = true
   <-> ip_allowed h req
       /\ (forall ua, In ua (ignoreUserAgents h) ->
             strings_Contains (Request_UserAgent req) ua = false)
       /\ (forall r, In r (ignoreRegexps h) ->
             Regexp_MatchString r (URL_String req) = false)
       /\ shouldTrackResource h (URL_Path req) = true
       /\ (createNewWebsites h = true
           \/ is_Some (websites h !! parseDomainFromHost (Host req))))
  /\ (fst (shouldTrack h req w) = true -> shouldTrack h req w = (true, w)).
Proof.
  pose proof (checkIP_falls_through h req w) as Hip.
  pose proof (checkIP_world h req w) as Hipw.
  unfold shouldTrack.
  destruct (checkIP h req w) as [b w1 | w1] eqn:Hcheck.
  - assert (Hb : b = false).
    { revert Hcheck. unfold checkIP. destruct (ignorePrefixes h);
        [discriminate |]. destruct (ParseAddr _); [| congruence].
      destruct (existsb _ _); congruence. }
    subst b. cbn [and_then fst]. split; [| discriminate].
    split; [discriminate |]. intros (Hallowed & _).
    apply Hip in Hallowed. destruct Hallowed as [w' [=]].
  - assert (Hallowed : ip_allowed h req) by (apply Hip; eauto).
    assert (Hw1 : w1 = w) by (apply Hipw; reflexivity).
    clear Hip Hipw Hcheck. subst w1. cbn [and_then].
    unfold checkUserAgent.
    destruct (existsb _ (ignoreUserAgents h)) eqn:Hua; cbn [and_then fst].
    { split; [| discriminate]. split; [discriminate |].
      intros (_ & Hnone & _). apply existsb_exists in Hua.
      destruct Hua as (x & Hx & Htrue). rewrite (Hnone x Hx) in Htrue.
      discriminate. }
    pose proof (proj1 (existsb_none _ _) Hua) as Hua'. unfold checkURL.
    destruct (existsb _ (ignoreRegexps h)) eqn:Hre; cbn [and_then fst].
    { split; [| discriminate]. split; [discriminate |].
      intros (_ & _ & Hnone & _). apply existsb_exists in Hre.
      destruct Hre as (x & Hx & Htrue). rewrite (Hnone x Hx) in Htrue.
      discriminate. }
    pose proof (proj1 (existsb_none _ _) Hre) as Hre'. unfold checkResource.
    destruct (shouldTrackResource h (URL_Path req)) eqn:Hres;
      cbn [negb and_then fst].
    2: { split; [| discriminate]. split; [discriminate |].
         intros (_ & _ & _ & [=] & _). }
    unfold checkWebsite. destruct (createNewWebsites h) eqn:Hnew; cbn [fst].
    { split; [| reflexivity]. split; [| reflexivity]. intros _.
      repeat split; auto. }
    destruct (websites h !! parseDomainFromHost (Host req)) as [id |] eqn:Hsite;
      cbn [fst].
    + split; [| reflexivity]. split; [| reflexivity]. intros _.
      repeat split; eauto.
    + split; [| discriminate]. split; [discriminate |].
      intros (_ & _ & _ & _ & [[=] | [id [=]]]).
Qed.

(** [shouldTrack] sends nothing, arms no timer, hands over no event and
    logs no error; with debugging off it leaves the world as it was. *)
Theorem shouldTrack_only_debugs h req w :
  requests (snd (shouldTrack h req w)) = requests w
  /\ afters (snd (shouldTrack h req w)) = afters w
  /\ handed (snd (shouldTrack h req w)) = handed w
  /\ error_lines (stdout (snd (shouldTrack h req w))) = error_lines (stdout w)
  /\ (isDebug h = false -> snd (shouldTrack h req w) = w).
Proof.
  assert (Hdbg : forall msg w0,
            requests (debug h msg w0) = requests w0
            /\ afters (debug h msg w0) = afters w0
            /\ handed (debug h msg w0) = handed w0
            /\ error_lines (stdout (debug h msg w0)) = error_lines (stdout w0)
            /\ (isDebug h = false -> debug h msg w0 = w0)).
  { intros msg w0.
    rewrite debug_requests, debug_afters, debug_handed, debug_stdout.
    repeat split. unfold debug. intros ->. reflexivity. }
  assert (Hsame : requests w = requests w /\ afters w = afters w
                  /\ handed w = handed w
                  /\ error_lines (stdout w) = error_lines (stdout w)
                  /\ (isDebug h = false -> w = w)) by (repeat split).
  unfold shouldTrack, checkIP.
  destruct (ignorePrefixes h);
    [| destruct (ParseAddr _); [destruct (existsb _ _) |]];
    cbn [and_then snd]; try apply Hdbg.
  all: unfold checkUserAgent; destruct (existsb _ (ignoreUserAgents h));
    cbn [and_then snd]; try apply Hdbg.
  all: unfold checkURL; destruct (existsb _ (ignoreRegexps h));
    cbn [and_then snd]; try apply Hdbg.
  all: unfold checkResource; destruct (negb _); cbn [and_then snd];
    try apply Hdbg.
  all: unfold checkWebsite; destruct (createNewWebsites h); cbn [snd];
    try exact Hsame.
  all: destruct (websites h !! _); cbn [snd]; try exact Hsame; apply Hdbg.
Qed.

(** *** User agents *)

Lemma prefix_append (s t : string) : String.prefix s (s +:+ t) = true.
Proof.
  induction s as [| c s IH].
  - destruct t; reflexivity.
  - change (String c s +:+ t) with (String c (s +:+ t)).
    cbn [String.prefix].
    destruct (Ascii.ascii_dec c c) as [_ | Hne]; [exact IH | contradiction].
Qed.

Lemma strings_Contains_inside (pre s post : string) :
  strings_Contains (pre +:+ s +:+ post) s = true.
Proof.
  induction pre as [| c pre IH].
  - change ("" +:+ s +:+ post) with (s +:+ post).
    destruct (s +:+ post) eqn:Heq; cbn [strings_Contains];
      rewrite <- Heq, prefix_append; reflexivity.
  - change (String c pre +:+ s +:+ post) with (String c (pre +:+ s +:+ post)).
    cbn [strings_Contains]. rewrite IH. apply orb_true_r.
Qed.

(** A request whose user agent has a configured entry anywhere inside it
    is not tracked.  The entry may be the empty string, which every user
    agent contains. *)
Theorem ignored_user_agent_is_excluded h req w ua pre post :
  In ua (ignoreUserAgents h) ->
  Request_UserAgent req = pre +:+ ua +:+ post ->
  fst (shouldTrack h req w) = false.
Proof.
  intros Hin Hua. unfold shouldTrack.
  assert (Hua' : existsb (fun disabledUserAgent =>
                   strings_Contains (Request_UserAgent req) disabledUserAgent)
                   (ignoreUserAgents h) = true).
  { apply existsb_exists. exists ua. split; [exact Hin |].
    cbv beta. rewrite Hua. apply strings_Contains_inside. }
  unfold checkIP.
  destruct (ignorePrefixes h) as [| p ps];
    [| destruct (ParseAddr _) as [ip | msg];
       [destruct (existsb (fun prefix => Prefix_Contains prefix ip) (p :: ps))
       |]];
    cbn [and_then fst]; try reflexivity;
    unfold checkUserAgent; rewrite Hua'; reflexivity.
Qed.

End Admission.

Lemma shouldTrack_accepts_iff_witness :
  fst (shouldTrack sampleFeeder sampleRequest world0) = true.
Proof.
  destruct (shouldTrack_accepts_iff sampleFeeder sampleRequest world0)
    as (Hiff & _).
  apply Hiff. split; [| split; [| split; [| split]]].
  - right. exists 3221225991. split; [reflexivity |].
    intros prefix [<- | []]. reflexivity.
  - intros ua [].
  - intros r [].
  - reflexivity.
  - right. exists "1". reflexivity.
Defined.

Lemma shouldTrack_only_debugs_witness :
  snd (shouldTrack sampleFeeder strangerRequest world0) = world0.
Proof.
  destruct (shouldTrack_only_debugs sampleFeeder strangerRequest world0)
    as (_ & _ & _ & _ & Hquiet).
  apply Hquiet. reflexivity.
Defined.

Lemma ignored_user_agent_is_excluded_witness :
  fst (shouldTrack (with_userAgents ["bot"] sampleFeeder) crawlerRequest
         world0) = false
  /\ fst (shouldTrack (with_userAgents [""] sampleFeeder) sampleRequest
            world0) = false.
Proof.
  split.
  - apply (ignored_user_agent_is_excluded
             (with_userAgents ["bot"] sampleFeeder) crawlerRequest world0
             "bot" "Google" "/2.1"); [left; reflexivity | reflexivity].
  - apply (ignored_user_agent_is_excluded
             (with_userAgents [""] sampleFeeder) sampleRequest world0
             "" "" "curl/8"); [left; reflexivity | reflexivity].
Defined.

(** ** Resources *)

Section Resources.

Context `{NetIP} `{Regex} `{Helpers}.

Lemma existsb_eqb_In (x : string) (l : list string) :
  existsb (String.eqb x) l = true <-> In x l.
Proof.
  rewrite existsb_exists. split.
  - intros (y & Hy & Heq). apply String.eqb_eq in Heq. subst. exact Hy.
  - intros Hx. exists x. split; [exact Hx | apply String.eqb_refl].
Qed.

Lemma existsb_eqb_In_flip (x : string) (l : list string) :
  existsb (fun y => String.eqb y x) l = true <-> In x l.
Proof.
  rewrite existsb_exists. split.
  - intros (y & Hy & Heq). apply String.eqb_eq in Heq. subst. exact Hy.
  - intros Hx. exists x. split; [exact Hx | apply String.eqb_refl].
Qed.

(** A resource is tracked exactly when all resources are tracked, or its
    extension is in the configured list, or no list is configured and
    its extension is one of the built-in ones.  A configured list
    replaces the built-in one. *)
Theorem shouldTrackResource_iff h url :
  shouldTrackResource h url = true
  <-> trackAllResources h = true
      \/ (trackExtensions h <> [] /\ In (path_Ext url) (trackExtensions h))
      \/ (trackExtensions h = [] /\ In (path_Ext url) contentExtensions).
Proof.
  unfold shouldTrackResource.
  destruct (trackAllResources h); [split; auto |].
  destruct (trackExtensions h) as [| ext exts] eqn:Hexts.
  - rewrite existsb_eqb_In. split.
    + intros Hin. right; right. split; [reflexivity | exact Hin].
    + intros [[=] | [[Hne _] | [_ Hin]]]; [contradiction | exact Hin].
  - rewrite existsb_eqb_In_flip. split.
    + intros Hin. right; left. split; [discriminate | exact Hin].
    + intros [[=] | [[_ Hin] | [[=] _]]]. exact Hin.
Qed.

Lemma path_Ext_from_last found dir file :
  path_Ext_from found (dir +:+ "/" +:+ file) = path_Ext_from "" file.
Proof.
  revert found. induction dir as [| c dir IH]; intros found.
  - reflexivity.
  - change (String c dir +:+ "/" +:+ file)
      with (String c (dir +:+ "/" +:+ file)).
    cbn [path_Ext_from].
    destruct (Ascii.eqb c "/"); [apply IH |].
    destruct (Ascii.eqb c "."); apply IH.
Qed.

Lemma path_Ext_from_no_dot p : forall found,
  lacks "." p = true ->
  path_Ext_from found p = found \/ path_Ext_from found p = "".
Proof.
  induction p as [| c p IH]; intros found Hno; cbn [path_Ext_from].
  - left. reflexivity.
  - cbn [lacks] in Hno. apply andb_true_iff in Hno. destruct Hno as [Hc Hp].
    apply negb_true_iff in Hc. rewrite Hc.
    destruct (Ascii.eqb c "/").
    + right. destruct (IH "" Hp) as [-> | ->]; reflexivity.
    + apply IH. exact Hp.
Qed.

(** The directories of a path have no say: only the last element of the
    path decides.  And a path without any dot counts as a page, which
    the built-in list tracks. *)
Theorem resource_filter_reads_last_element h :
  (forall dir file,
     shouldTrackResource h (dir +:+ "/" +:+ file)
     = shouldTrackResource h file)
  /\ (forall url,
        trackExtensions h = [] ->
        lacks "." url = true ->
        shouldTrackResource h url = true).
Proof.
  split.
  - intros dir file. unfold shouldTrackResource, path_Ext.
    rewrite path_Ext_from_last. reflexivity.
  - intros url Hexts Hno. unfold shouldTrackResource, path_Ext.
    rewrite Hexts. destruct (trackAllResources h); [reflexivity |].
    destruct (path_Ext_from_no_dot url "" Hno) as [-> | ->]; reflexivity.
Qed.

End Resources.

Lemma shouldTrackResource_iff_witness :
  shouldTrackResource (with_extensions [".html"] sampleFeeder) "/foo.html"
  = true
  /\ shouldTrackResource (with_extensions [".html"] sampleFeeder) "/foo.php"
     <> true
  /\ shouldTrackResource sampleFeeder "/app.js" <> true.
Proof.
  split; [| split].
  - apply (shouldTrackResource_iff (with_extensions [".html"] sampleFeeder)).
    right; left. split; [discriminate | left; reflexivity].
  - intros Hyes.
    apply (shouldTrackResource_iff (with_extensions [".html"] sampleFeeder))
      in Hyes.
    destruct Hyes as [[=] | [[_ [[=] | []]] | [[=] _]]].
  - intros Hyes. apply (shouldTrackResource_iff sampleFeeder) in Hyes.
    destruct Hyes as [[=] | [[Hne _] | [_ Hin]]]; [contradiction |].
    vm_compute in Hin. intuition discriminate.
Defined.

Lemma resource_filter_reads_last_element_witness :
  shouldTrackResource sampleFeeder "/v1.2/docs/page" = true.
Proof.
  destruct (resource_filter_reads_last_element sampleFeeder) as (Hlast & Hpage).
  etransitivity; [apply (Hlast "/v1.2/docs" "page") |].
  apply Hpage; reflexivity.
Defined.

(** ** Serving a request *)

Section Serving.

Context `{NetIP} `{Regex} `{Helpers}.

Lemma set_queue_same h : set_queue (queue h) h = h.
Proof. destruct h. reflexivity. Qed.

Lemma errors_of_app l1 l2 : errors_of (l1 ++ l2) = errors_of l1 ++ errors_of l2.
Proof. apply List.filter_app. Qed.

Lemma errors_of_debug h msg w :
  errors_of (stdout (debug h msg w)) = errors_of (stdout w).
Proof.
  unfold debug. destruct (isDebug h); [| reflexivity].
  cbn [print stdout]. rewrite errors_of_app. cbn. apply app_nil_r.
Qed.

Lemma errors_of_error h msg w :
  errors_of (stdout (error h msg w))
  = errors_of (stdout w)
    ++ [{| level := ERR; middlewareName := name h; message := msg |}].
Proof. cbn [error print stdout]. rewrite errors_of_app. reflexivity. Qed.

(** What [submitToFeed] leaves alone. *)
Lemma submitToFeed_frame h req code w :
  fst (submitToFeed h req code w)
  = set_queue (queue (fst (submitToFeed h req code w))) h
  /\ cap (queue (fst (submitToFeed h req code w))) = cap (queue h)
  /\ requests (snd (submitToFeed h req code w)) = requests w
  /\ afters (snd (submitToFeed h req code w)) = afters w.
Proof.
  unfold submitToFeed.
  destruct (websites h !! _) as [websiteId |];
    [| cbn [fst snd]; rewrite set_queue_same; repeat split].
  unfold chan_trysend. destruct (recvq (queue h));
    [| destruct (chan_len (queue h) <? cap (queue h))];
    cbn [fst snd queue set_queue cap]; rewrite ?set_queue_same;
    repeat split.
Qed.

Lemma shouldTrackStatus_world h code w :
  requests (snd (shouldTrackStatus h code w)) = requests w
  /\ afters (snd (shouldTrackStatus h code w)) = afters w
  /\ handed (snd (shouldTrackStatus h code w)) = handed w
  /\ errors_of (stdout (snd (shouldTrackStatus h code w)))
     = errors_of (stdout w)
  /\ (isDebug h = false -> snd (shouldTrackStatus h code w) = w).
Proof.
  unfold shouldTrackStatus.
  destruct (400 <=? code); [destruct (trackErrors h) |]; cbn [snd];
    rewrite ?debug_requests, ?debug_afters, ?debug_handed, ?errors_of_debug;
    repeat split.
  unfold debug. intros ->. reflexivity.
Qed.

Lemma writeHeaders_frame codes : forall rw h w,
  written (fst (fst (writeHeaders rw codes h w))) = written rw ++ codes
  /\ snd (fst (writeHeaders rw codes h w))
     = set_queue (queue (snd (fst (writeHeaders rw codes h w)))) h
  /\ cap (queue (snd (fst (writeHeaders rw codes h w)))) = cap (queue h)
  /\ requests (snd (writeHeaders rw codes h w)) = requests w
  /\ afters (snd (writeHeaders rw codes h w)) = afters w.
Proof.
  induction codes as [| code codes IH]; intros rw h w; cbn [writeHeaders].
  - cbn [fst snd]. rewrite app_nil_r, set_queue_same. repeat split.
  - unfold WriteHeader.
    pose proof (shouldTrackStatus_world h code w) as (Hr & Ha & _).
    destruct (shouldTrackStatus h code w) as [report w1]. cbn [snd] in Hr, Ha.
    assert (Hstep : exists h2 w2,
              (if report then submitToFeed h (request rw) code w1
               else (h, w1)) = (h2, w2)
              /\ h2 = set_queue (queue h2) h
              /\ cap (queue h2) = cap (queue h)
              /\ requests w2 = requests w /\ afters w2 = afters w).
    { destruct report.
      - pose proof (submitToFeed_frame h (request rw) code w1)
          as (Hh & Hc & Hr2 & Ha2).
        destruct (submitToFeed h (request rw) code w1) as [h2 w2].
        cbn [fst snd] in *. exists h2, w2. repeat split; congruence.
      - exists h, w1. rewrite set_queue_same. repeat split; assumption. }
    destruct Hstep as (h2 & w2 & -> & Hh2 & Hc2 & Hr2 & Ha2).
    destruct (IH {| written := written rw ++ [code]; request := request rw |}
                 h2 w2) as (Hw & Hh & Hc & Hr3 & Ha3).
    rewrite Hw, Hc, Hr3, Ha3. cbn [written]. rewrite <- app_assoc.
    repeat split; try congruence.
    rewrite Hh at 1. rewrite Hh2. reflexivity.
Qed.

Lemma shouldTrack_frame h req w :
  requests (snd (shouldTrack h req w)) = requests w
  /\ afters (snd (shouldTrack h req w)) = afters w.
Proof.
  assert (Hdbg : forall msg w0,
            requests (debug h msg w0) = requests w0
            /\ afters (debug h msg w0) = afters w0)
    by (intros; rewrite debug_requests, debug_afters; split; reflexivity).
  unfold shouldTrack, checkIP.
  destruct (ignorePrefixes h) as [| p ps];
    [| destruct (ParseAddr _) as [ip | msg];
       [destruct (existsb (fun prefix => Prefix_Contains prefix ip) (p :: ps))
       |]];
    cbn [and_then snd]; try apply Hdbg.
  all: unfold checkUserAgent; destruct (existsb _ (ignoreUserAgents h));
    cbn [and_then snd]; try apply Hdbg.
  all: unfold checkURL; destruct (existsb _ (ignoreRegexps h));
    cbn [and_then snd]; try apply Hdbg.
  all: unfold checkResource; destruct (negb _); cbn [and_then snd];
    try apply Hdbg.
  all: unfold checkWebsite; destruct (createNewWebsites h); cbn [snd];
    try (split; reflexivity).
  all: destruct (websites h !! _); cbn [snd]; try (split; reflexivity);
    apply Hdbg.
Qed.

(** Serving a request never waits for the collector: [ServeHTTP] sends
    no request and arms no timer.  The header writes of the next handler
    all reach the writer of the proxy, and of the plugin only the
    content of the queue can change, within the same capacity. *)
Theorem ServeHTTP_is_transparent next h req w :
  fst (fst (ServeHTTP next h req w)) = next req
  /\ snd (fst (ServeHTTP next h req w))
     = set_queue (queue (snd (fst (ServeHTTP next h req w)))) h
  /\ cap (queue (snd (fst (ServeHTTP next h req w)))) = cap (queue h)
  /\ requests (snd (ServeHTTP next h req w)) = requests w
  /\ afters (snd (ServeHTTP next h req w)) = afters w.
Proof.
  unfold ServeHTTP.
  destruct (isDisabled h);
    [cbn [fst snd]; rewrite set_queue_same; repeat split |].
  pose proof (shouldTrack_frame h req w) as (Hr & Ha).
  destruct (shouldTrack h req w) as [[|] w1]; cbn [snd] in Hr, Ha.
  - pose proof (writeHeaders_frame (next req)
                  {| written := []; request := req |} h w1)
      as (Hw & Hh & Hc & Hr2 & Ha2).
    destruct (writeHeaders _ _ _ _) as [[rw h2] w2].
    cbn [fst snd written app] in *.
    repeat split; try assumption; congruence.
  - cbn [fst snd]. rewrite set_queue_same. repeat split; assumption.
Qed.

End Serving.

Lemma ServeHTTP_is_transparent_witness :
  fst (fst (ServeHTTP earlyHints fullFeeder sampleRequest world0))
  = [103; 200]
  /\ requests (snd (ServeHTTP earlyHints fullFeeder sampleRequest world0))
     = [].
Proof.
  destruct (ServeHTTP_is_transparent earlyHints fullFeeder sampleRequest world0)
    as (Hcodes & _ & _ & Hreq & _).
  split; [exact Hcodes | exact Hreq].
Defined.

(** ** Statuses and errors on the path of a request *)

Section Statuses.

Context `{NetIP} `{Regex} `{Helpers}.

(** With error tracking off, header writes with a status of 400 or more
    change nothing of the plugin and log no error; the codes still reach
    the wrapped writer, and with debugging off the world is untouched. *)
Theorem error_responses_are_not_tracked codes : forall rw h w,
  trackErrors h = false ->
  Forall (fun code => 400 <= code) codes ->
  fst (writeHeaders rw codes h w)
  = ({| written := written rw ++ codes; request := request rw |}, h)
  /\ handed (snd (writeHeaders rw codes h w)) = handed w
  /\ requests (snd (writeHeaders rw codes h w)) = requests w
  /\ errors_of (stdout (snd (writeHeaders rw codes h w)))
     = errors_of (stdout w)
  /\ (isDebug h = false -> snd (writeHeaders rw codes h w) = w).
Proof.
  induction codes as [| code codes IH]; intros rw h w Htrack Hcodes;
    cbn [writeHeaders].
  - cbn [fst snd]. rewrite app_nil_r. destruct rw. repeat split.
  - inversion Hcodes as [| ? ? Hcode Hrest]; subst.
    unfold WriteHeader, shouldTrackStatus. rewrite Htrack.
    destruct (Z.leb_spec 400 code); [| lia].
    destruct (IH {| written := written rw ++ [code]; request := request rw |}
                 h (debug h ("not reporting " +:+ itoa code +:+ " error") w)
                 Htrack Hrest) as (Hfst & Hhanded & Hreq & Herr & Hquiet).
    rewrite Hfst, Hhanded, Hreq, Herr.
    rewrite debug_handed, debug_requests, errors_of_debug.
    cbn [written request]. rewrite <- app_assoc.
    repeat split. intros Hdebug. rewrite (Hquiet Hdebug).
    unfold debug. rewrite Hdebug. reflexivity.
Qed.

Lemma shouldTrack_errors h req w :
  errors_of (stdout (snd (shouldTrack h req w))) = errors_of (stdout w).
Proof.
  unfold shouldTrack, checkIP.
  destruct (ignorePrefixes h) as [| p ps];
    [| destruct (ParseAddr _) as [ip | msg];
       [destruct (existsb (fun prefix => Prefix_Contains prefix ip) (p :: ps))
       |]];
    cbn [and_then snd]; try apply errors_of_debug.
  all: unfold checkUserAgent; destruct (existsb _ (ignoreUserAgents h));
    cbn [and_then snd]; try apply errors_of_debug.
  all: unfold checkURL; destruct (existsb _ (ignoreRegexps h));
    cbn [and_then snd]; try apply errors_of_debug.
  all: unfold checkResource; destruct (negb _); cbn [and_then snd];
    try apply errors_of_debug.
  all: unfold checkWebsite; destruct (createNewWebsites h); cbn [snd];
    try reflexivity.
  all: destruct (websites h !! _); cbn [snd]; try reflexivity;
    apply errors_of_debug.
Qed.

Lemma submitToFeed_errors h req code w websiteId :
  websites h !! parseDomainFromHost (Host req) = Some websiteId ->
  exists k,
    (k <= 1)%nat
    /\ errors_of (stdout (snd (submitToFeed h req code w)))
       = errors_of (stdout w) ++ repeat (queue_full_line h) k.
Proof.
  intros Hsite. unfold submitToFeed. rewrite Hsite.
  destruct (chan_trysend (queue h) _); cbn [snd record_handed stdout].
  - exists 0%nat. split; [lia | symmetry; apply app_nil_r].
  - exists 0%nat. split; [lia | symmetry; apply app_nil_r].
  - exists 1%nat. split; [lia | apply errors_of_error].
Qed.

Lemma writeHeaders_errors req websiteId codes : forall rw h w,
  request rw = req ->
  websites h !! parseDomainFromHost (Host req) = Some websiteId ->
  exists k,
    (k <= length codes)%nat
    /\ errors_of (stdout (snd (writeHeaders rw codes h w)))
       = errors_of (stdout w) ++ repeat (queue_full_line h) k.
Proof.
  induction codes as [| code codes IH]; intros rw h w Hrw Hsite;
    cbn [writeHeaders].
  - exists 0%nat. split; [cbn; lia | symmetry; apply app_nil_r].
  - unfold WriteHeader.
    pose proof (shouldTrackStatus_world h code w) as (_ & _ & _ & Herr1 & _).
    destruct (shouldTrackStatus h code w) as [report w1]. cbn [snd] in Herr1.
    assert (Hstep : exists h2 w2 k1,
              (if report then submitToFeed h (request rw) code w1
               else (h, w1)) = (h2, w2)
              /\ h2 = set_queue (queue h2) h
              /\ (k1 <= 1)%nat
              /\ errors_of (stdout w2)
                 = errors_of (stdout w) ++ repeat (queue_full_line h) k1).
    { destruct report.
      - pose proof (submitToFeed_frame h (request rw) code w1) as (Hh & _).
        rewrite Hrw in *.
        destruct (submitToFeed_errors h req code w1 websiteId Hsite)
          as (k1 & Hk1 & Herr2).
        destruct (submitToFeed h req code w1) as [h2 w2]. cbn [fst snd] in *.
        exists h2, w2, k1. rewrite Herr2, Herr1. repeat split; assumption.
      - exists h, w1, 0%nat. rewrite set_queue_same, Herr1.
        repeat split; [lia | symmetry; apply app_nil_r]. }
    destruct Hstep as (h2 & w2 & k1 & -> & Hh2 & Hk1 & Herr2).
    assert (Hsite2 : websites h2 !! parseDomainFromHost (Host req)
                     = Some websiteId) by (rewrite Hh2; exact Hsite).
    destruct (IH {| written := written rw ++ [code]; request := request rw |}
                 h2 w2 Hrw Hsite2) as (k & Hk & Herr3).
    exists (k1 + k)%nat. split; [cbn [length]; lia |].
    rewrite Herr3, Herr2, <- app_assoc, repeat_app.
    replace (queue_full_line h2) with (queue_full_line h)
      by (rewrite Hh2; reflexivity).
    reflexivity.
Qed.

Lemma shouldTrack_accepted_site h req w :
  fst (shouldTrack h req w) = true ->
  createNewWebsites h = false ->
  is_Some (websites h !! parseDomainFromHost (Host req)).
Proof.
  intros Hyes Hnew. revert Hyes. unfold shouldTrack, checkIP.
  destruct (ignorePrefixes h) as [| p ps];
    [| destruct (ParseAddr _) as [ip | msg];
       [destruct (existsb (fun prefix => Prefix_Contains prefix ip) (p :: ps))
       |]];
    cbn [and_then fst]; try discriminate.
  all: unfold checkUserAgent; destruct (existsb _ (ignoreUserAgents h));
    cbn [and_then fst]; try discriminate.
  all: unfold checkURL; destruct (existsb _ (ignoreRegexps h));
    cbn [and_then fst]; try discriminate.
  all: unfold checkResource; destruct (negb _); cbn [and_then fst];
    try discriminate.
  all: unfold checkWebsite; rewrite Hnew.
  all: destruct (websites h !! _); cbn [fst]; [eauto | discriminate].
Qed.

(** On the path of a request the lookup of the website cannot fail a
    second time: when website creation is off, as [New] leaves it, a
    request that [shouldTrack] accepted has its hostname in the map, so
    the only error that [ServeHTTP] ever logs is the full queue, at most
    once for each header write. *)
Theorem serving_logs_only_full_queue next h req w :
  createNewWebsites h = false ->
  exists k,
    (k <= length (next req))%nat
    /\ errors_of (stdout (snd (ServeHTTP next h req w)))
       = errors_of (stdout w) ++ repeat (queue_full_line h) k.
Proof.
  intros Hnew. unfold ServeHTTP.
  assert (Hnone : exists k,
            (k <= length (next req))%nat
            /\ errors_of (stdout w)
               = errors_of (stdout w) ++ repeat (queue_full_line h) k).
  { exists 0%nat. split; [lia | symmetry; apply app_nil_r]. }
  destruct (isDisabled h); [exact Hnone |].
  pose proof (shouldTrack_accepted_site h req w) as Hknown.
  pose proof (shouldTrack_errors h req w) as Herr.
  destruct (shouldTrack h req w) as [[|] w1]; cbn [fst snd] in *.
  - destruct (Hknown eq_refl Hnew) as [id Hsite].
    destruct (writeHeaders_errors req id (next req)
                {| written := []; request := req |} h w1 eq_refl Hsite)
      as (k & Hk & Herr2).
    destruct (writeHeaders _ _ _ _) as [[rw h2] w2]. cbn [snd] in *.
    exists k. split; [exact Hk |]. rewrite Herr2, Herr. reflexivity.
  - cbn [snd]. rewrite Herr. exact Hnone.
Qed.

End Statuses.

Lemma error_responses_are_not_tracked_witness :
  writeHeaders {| written := []; request := sampleRequest |} [500; 404]
               sampleFeeder world0
  = ({| written := [500; 404]; request := sampleRequest |}, sampleFeeder,
     world0).
Proof.
  destruct (error_responses_are_not_tracked [500; 404]
              {| written := []; request := sampleRequest |} sampleFeeder
              world0 eq_refl)
    as (Hfst & _ & _ & _ & Hquiet); [repeat constructor; lia |].
  specialize (Hquiet eq_refl).
  destruct (writeHeaders _ _ _ _) as [p w']. cbn [fst snd] in *.
  rewrite Hfst, Hquiet. reflexivity.
Defined.

Lemma serving_logs_only_full_queue_witness :
  exists k,
    (k <= 2)%nat
    /\ errors_of (stdout (snd (ServeHTTP earlyHints fullFeeder sampleRequest
                                        world0)))
       = repeat (queue_full_line fullFeeder) k.
Proof.
  destruct (serving_logs_only_full_queue earlyHints fullFeeder sampleRequest
              world0 eq_refl) as (k & Hk & Herr).
  exists k. split; [exact Hk | exact Herr].
Defined.

(** ** Verifying the configuration *)

Section Verification.

Context `{NetIP} `{Regex} `{Helpers}.

Lemma verifyIgnoreIPs_ok ips : forall h h',
  verifyIgnoreIPs ips h = (None, h') ->
  exists ps,
    Forall2 prefix_of_entry ips ps
    /\ h' = set_ignorePrefixes (ignorePrefixes h ++ ps) h.
Proof.
  induction ips as [| entry ips IH]; intros h h'; cbn [verifyIgnoreIPs].
  - intros [= <-]. exists []. split; [constructor |].
    rewrite app_nil_r. destruct h. reflexivity.
  - destruct (ParsePrefix entry) as [p | msg] eqn:Hfirst.
    + destruct (Prefix_IsValid p) eqn:Hvalid; cbn [negb]; [| discriminate].
      intros Hrest. apply IH in Hrest. destruct Hrest as (ps & Hps & ->).
      exists (p :: ps). split.
      * constructor; [| exact Hps]. split; [left; exact Hfirst | exact Hvalid].
      * cbn [ignorePrefixes set_ignorePrefixes]. rewrite <- app_assoc.
        reflexivity.
    + destruct (ParsePrefix (entry +:+ "/32")) as [p | msg2] eqn:Hsecond;
        [| discriminate].
      destruct (Prefix_IsValid p) eqn:Hvalid; cbn [negb]; [| discriminate].
      intros Hrest. apply IH in Hrest. destruct Hrest as (ps & Hps & ->).
      exists (p :: ps). split.
      * constructor; [| exact Hps].
        split; [right; split; [eauto | exact Hsecond] | exact Hvalid].
      * cbn [ignorePrefixes set_ignorePrefixes]. rewrite <- app_assoc.
        reflexivity.
Qed.

Lemma verifyIgnoreURLs_ok urls : forall h h',
  verifyIgnoreURLs urls h = (None, h') ->
  exists rs,
    Forall2 (fun location r => regexp_Compile location = Ok r) urls rs
    /\ h' = set_ignoreRegexps (ignoreRegexps h ++ rs) h.
Proof.
  induction urls as [| location urls IH]; intros h h'; cbn [verifyIgnoreURLs].
  - intros [= <-]. exists []. split; [constructor |].
    rewrite app_nil_r. destruct h. reflexivity.
  - destruct (regexp_Compile location) as [r | msg] eqn:Hcompile;
      [| discriminate].
    intros Hrest. apply IH in Hrest. destruct Hrest as (rs & Hrs & ->).
    exists (r :: rs). split; [constructor; assumption |].
    cbn [ignoreRegexps set_ignoreRegexps]. rewrite <- app_assoc. reflexivity.
Qed.

(** When [verifyConfig] succeeds, the plugin has gained one valid prefix
    for each entry of [ignoreIPs], a bare address counting as a [/32],
    and one compiled pattern for each entry of [ignoreURLs], in the order
    of the configuration; nothing else of the plugin has changed. *)
Theorem verifyConfig_success config h h' :
  verifyConfig config h = (None, h') ->
  exists ps rs,
    Forall2 prefix_of_entry (IgnoreIPs config) ps
    /\ Forall2 (fun location r => regexp_Compile location = Ok r)
               (IgnoreURLs config) rs
    /\ h' = set_ignoreRegexps (ignoreRegexps h ++ rs)
              (set_ignorePrefixes (ignorePrefixes h ++ ps) h).
Proof.
  unfold verifyConfig.
  destruct (verifyIgnoreIPs (IgnoreIPs config) h) as [[err |] h1] eqn:Hips;
    [discriminate |].
  intros Hurls.
  apply verifyIgnoreIPs_ok in Hips. destruct Hips as (ps & Hps & ->).
  apply verifyIgnoreURLs_ok in Hurls. destruct Hurls as (rs & Hrs & ->).
  exists ps, rs. split; [exact Hps |]. split; [exact Hrs |]. reflexivity.
Qed.

Lemma verifyIgnoreIPs_bad ips : forall h,
  Exists (fun entry => forall p, ~ prefix_of_entry entry p) ips ->
  exists err h', verifyIgnoreIPs ips h = (Some err, h').
Proof.
  induction ips as [| entry ips IH]; intros h Hbad; cbn [verifyIgnoreIPs].
  - inversion Hbad.
  - destruct (ParsePrefix entry) as [p | msg] eqn:Hfirst.
    + destruct (Prefix_IsValid p) eqn:Hvalid; cbn [negb]; [| eauto].
      inversion Hbad as [? ? Hhere | ? ? Hlater]; subst.
      * exfalso. apply (Hhere p). split; [left; exact Hfirst | exact Hvalid].
      * apply IH. exact Hlater.
    + destruct (ParsePrefix (entry +:+ "/32")) as [p | msg2] eqn:Hsecond;
        [| eauto].
      destruct (Prefix_IsValid p) eqn:Hvalid; cbn [negb]; [| eauto].
      inversion Hbad as [? ? Hhere | ? ? Hlater]; subst.
      * exfalso. apply (Hhere p).
        split; [right; split; [eauto | exact Hsecond] | exact Hvalid].
      * apply IH. exact Hlater.
Qed.

Lemma verifyIgnoreIPs_regexps ips : forall h,
  ignoreRegexps (snd (verifyIgnoreIPs ips h)) = ignoreRegexps h.
Proof.
  induction ips as [| entry ips IH]; intros h; cbn [verifyIgnoreIPs];
    [reflexivity |].
  destruct (match ParsePrefix entry with
            | Ok network => Ok network
            | Err _ => ParsePrefix (entry +:+ "/32")
            end) as [p | msg]; [| reflexivity].
  destruct (negb (Prefix_IsValid p)); [reflexivity |].
  rewrite IH. reflexivity.
Qed.

(** An entry of [ignoreIPs] that gives no valid prefix, neither as it is
    nor with ["/32"] appended, makes [verifyConfig] fail, wherever it
    stands in the list and whatever the other settings are; the patterns
    of [ignoreURLs] are then not compiled at all. *)
Theorem verifyConfig_rejects_bad_address config h :
  Exists (fun entry => forall p, ~ prefix_of_entry entry p)
         (IgnoreIPs config) ->
  exists err h',
    verifyConfig config h = (Some err, h')
    /\ ignoreRegexps h' = ignoreRegexps h.
Proof.
  intros Hbad. unfold verifyConfig.
  pose proof (verifyIgnoreIPs_regexps (IgnoreIPs config) h) as Hre.
  destruct (verifyIgnoreIPs_bad (IgnoreIPs config) h Hbad)
    as (err & h' & Hfail).
  rewrite Hfail in *. exists err, h'. split; [reflexivity | exact Hre].
Qed.

End Verification.

Lemma verifyConfig_success_witness :
  exists ps rs,
    Forall2 prefix_of_entry (IgnoreIPs bareConfig) ps
    /\ Forall2 (fun location r => regexp_Compile location = Ok r)
               (IgnoreURLs bareConfig) rs
    /\ set_ignoreRegexps ["/health"]
         (set_ignorePrefixes [(2130706433, 32)] freshFeeder)
       = set_ignoreRegexps (ignoreRegexps freshFeeder ++ rs)
           (set_ignorePrefixes (ignorePrefixes freshFeeder ++ ps) freshFeeder).
Proof.
  apply (verifyConfig_success bareConfig freshFeeder). reflexivity.
Defined.

Lemma verifyConfig_rejects_bad_address_witness :
  exists err h',
    verifyConfig brokenConfig freshFeeder = (Some err, h')
    /\ ignoreRegexps h' = ignoreRegexps freshFeeder.
Proof.
  apply (verifyConfig_rejects_bad_address brokenConfig freshFeeder).
  right. left. intros p [[Hparse | [_ Hparse]] _]; discriminate.
Defined.

(** ** Outcomes of the connection supervisor *)

Section Outcomes.

Context `{NetIP} `{Regex} `{Helpers}.

(** The world at the head of an iteration of [retryConnection], before
    its [select]. *)
Lemma connect_probe net h w status body :
  host h <> "" -> apiKey h <> "" -> websites h <> ∅ ->
  net (length (requests w)) (healthCall h) = Responded status body ->
  connect net h w = (Return None, record_call (healthCall h) w).
Proof.
  intros Hhost Hkey Hsites Hnet. unfold connect.
  destruct (String.eqb_spec (host h) ""); [contradiction |].
  destruct (String.eqb_spec (apiKey h) ""); [contradiction |].
  destruct (Nat.eqb_spec (size (websites h)) 0) as [Hsize | _].
  - apply map_size_empty_iff in Hsize. contradiction.
  - unfold sendRequest. fold (healthCall h). rewrite Hnet. reflexivity.
Qed.

(** Once the collector has answered the probe, an error of
    [verifyConfig] ends the supervisor for good: the plugin is left
    disabled, the error is logged once, and the cases that the [select]
    would still take are never looked at. *)
Theorem configuration_error_is_fatal net config h w status body err h' rest :
  host h <> "" -> apiKey h <> "" -> websites h <> ∅ ->
  net (length (requests w)) (healthCall h) = Responded status body ->
  verifyConfig config h = (Some err, h') ->
  exists w',
    retryConnection net config (AfterDelay :: rest) h w
    = RetryExited ConfigurationError (set_isDisabled true h') w'
    /\ errors_of (stdout w')
       = errors_of (stdout w)
         ++ [{| level := ERR; middlewareName := name h';
                message := "configuration error, the plugin is disabled: "
                           +:+ err |}]
    /\ requests w' = requests w ++ [healthCall h]
    /\ afters w' = afters w ++ [0].
Proof.
  intros Hhost Hkey Hsites Hnet Hverify.
  unfold retryConnection. cbn [retryLoop]. cbn [Z.ltb Z.compare].
  match goal with
  | |- context [connect net h ?w1] =>
      assert (Hlen : length (requests w1) = length (requests w))
        by (rewrite debug_requests; reflexivity);
      rewrite (connect_probe net h w1 status body Hhost Hkey Hsites)
        by (rewrite Hlen; exact Hnet)
  end.
  rewrite Hverify. eexists. split; [reflexivity |].
  rewrite errors_of_error, errors_of_debug.
  cbn [stdout requests afters error print record_call].
  rewrite !debug_requests, !debug_afters, errors_of_debug.
  cbn [stdout requests afters record_after]. split; [reflexivity |].
  unfold record_call. cbn [requests afters].
  rewrite debug_requests, debug_afters. split; reflexivity.
Qed.

(** Whatever happens, a supervisor that has started the worker has seen
    all three settings present, has had an answer to a health probe and
    has verified the configuration; the plugin it leaves is enabled and
    differs from the one it was given only by the compiled filters. *)
Theorem worker_starts_only_when_ready net config sel : forall a h w h' w',
  retryLoop net config sel a h w = RetryExited WorkerStarted h' w' ->
  host h <> "" /\ apiKey h <> "" /\ websites h <> ∅
  /\ In (healthCall h) (requests w')
  /\ isDisabled h' = false
  /\ exists verified,
       verifyConfig config h = (None, verified)
       /\ h' = set_isDisabled false verified.
Proof.
  induction sel as [| s rest IH]; intros a h w h' w'; cbn [retryLoop];
    [discriminate |].
  destruct s; [| discriminate].
  match goal with
  | |- context [connect net h ?w1] => generalize w1
  end.
  intros w1. unfold connect.
  destruct (String.eqb_spec (host h) "") as [| Hhost]; [apply IH |].
  destruct (String.eqb_spec (apiKey h) "") as [| Hkey]; [apply IH |].
  destruct (Nat.eqb_spec (size (websites h)) 0) as [| Hsize]; [apply IH |].
  assert (Hsites : websites h <> ∅).
  { intros Hempty. rewrite Hempty, map_size_empty in Hsize. contradiction. }
  unfold sendRequest. fold (healthCall h).
  destruct (net _ _) as [status body | msg | v].
  - destruct (verifyConfig config h) as [[err |] verified] eqn:Hverify;
      [discriminate |].
    intros [= <- <-]. repeat (split; [assumption |]).
    split.
    + rewrite !debug_requests. cbn [requests record_call].
      apply in_or_app. right. left. reflexivity.
    + split; [reflexivity |]. exists verified. split; reflexivity.
  - intros Hloop. apply IH in Hloop. exact Hloop.
  - discriminate.
Qed.

Lemma connect_unreachable net h w :
  (forall n c, exists msg, net n c = Failed msg) ->
  exists msg w',
    connect net h w = (Return (Some msg), w')
    /\ errors_of (stdout w') = errors_of (stdout w).
Proof.
  intros Hnet. unfold connect.
  destruct (String.eqb (host h) ""); [eauto |].
  destruct (String.eqb (apiKey h) ""); [eauto |].
  destruct (Nat.eqb (size (websites h)) 0); [eauto |].
  unfold sendRequest.
  destruct (Hnet (length (requests w)) (healthCall h)) as [msg Hfail].
  unfold healthCall in Hfail. rewrite Hfail. eauto.
Qed.

(** While the collector cannot be reached the supervisor never enables
    the plugin and never gives up: it goes on waiting, with the plugin
    as it was, until its context is cancelled, and it ends as cancelled
    exactly when a cancellation is among the cases of its [select]. *)
Theorem unreachable_collector_keeps_retrying net config sel : forall a h w,
  (forall n c, exists msg, net n c = Failed msg) ->
  (~ In RetryCtxDone sel
   /\ exists k w', retryLoop net config sel a h w = RetryWaiting k h w')
  \/ (In RetryCtxDone sel
      /\ exists w',
           retryLoop net config sel a h w = RetryExited RetryCancelled h w').
Proof.
  induction sel as [| s rest IH]; intros a h w Hnet; cbn [retryLoop].
  - left. split; [intros [] | eauto].
  - destruct s.
    + match goal with
      | |- context [connect net h ?w1] =>
          destruct (connect_unreachable net h w1 Hnet)
            as (msg & w2 & -> & _)
      end.
      match goal with
      | |- context [retryLoop net config rest ?a1 h ?w3] =>
          destruct (IH a1 h w3 Hnet) as [[Hno Hwait] | [Hyes Hdone]]
      end.
      * left. split; [| exact Hwait]. intros [[=] | Hin]. contradiction.
      * right. split; [right; exact Hyes | exact Hdone].
    + right. split; [left; reflexivity | eauto].
Qed.

End Outcomes.

Lemma configuration_error_is_fatal_witness :
  exists w',
    retryConnection healthy brokenConfig
      [AfterDelay; AfterDelay; AfterDelay] freshFeeder world0
    = RetryExited ConfigurationError
        (set_isDisabled true
           (@set_ignorePrefixes ipv4 literal_regex [(167772160, 8)] freshFeeder)) w'
    /\ errors_of (stdout w')
       = [{| level := ERR; middlewareName := "rybbit";
             message :=
               "configuration error, the plugin is disabled: invalid ignoreIp given localhost: bad prefix: localhost/32" |}].
Proof.
  destruct (configuration_error_is_fatal healthy brokenConfig freshFeeder
              world0 "200 OK" "ok"
              "invalid ignoreIp given localhost: bad prefix: localhost/32"
              (@set_ignorePrefixes ipv4 literal_regex [(167772160, 8)] freshFeeder)
              [AfterDelay; AfterDelay])
    as (w' & Hrun & Herr & _).
  - discriminate.
  - discriminate.
  - intros Hempty. apply (f_equal (fun m => m !! "example.com")) in Hempty.
    vm_compute in Hempty. discriminate.
  - reflexivity.
  - reflexivity.
  - exists w'. split; [exact Hrun | exact Herr].
Defined.

Lemma worker_starts_only_when_ready_witness :
  In (healthCall freshFeeder)
     [{| call_url := "http://rybbit.example/health"; call_body := VNil |}]
  /\ isDisabled sampleFeeder = false.
Proof.
  destruct (worker_starts_only_when_ready healthy sampleConfig [AfterDelay] 0
              freshFeeder world0 sampleFeeder
              {| stdout := [];
                 requests := [{| call_url := "http://rybbit.example/health";
                                 call_body := VNil |}];
                 afters := [0]; handed := [] |} eq_refl)
    as (_ & _ & _ & Hprobe & Henabled & _).
  split; [exact Hprobe | exact Henabled].
Defined.

Lemma unreachable_collector_keeps_retrying_witness :
  exists w',
    retryLoop (fun _ _ => Failed "connection refused") sampleConfig
              [AfterDelay; RetryCtxDone; AfterDelay] 0 freshFeeder world0
    = RetryExited RetryCancelled freshFeeder w'.
Proof.
  destruct (unreachable_collector_keeps_retrying
              (fun _ _ => Failed "connection refused") sampleConfig
              [AfterDelay; RetryCtxDone; AfterDelay] 0 freshFeeder world0)
    as [[Hno _] | [_ (w' & Hrun)]].
  - intros n c. eauto.
  - exfalso. apply Hno. right. left. reflexivity.
  - exists w'. exact Hrun.
Defined.

(** ** The worker over a whole run *)

Section Runs.

Context `{NetIP} `{Regex} `{Helpers}.

Lemma iteration_waiting net h st s w :
  worker_waiting h st ->
  iteration net h st s w <> NotReady
  /\ forall st' w', iteration net h st s w = Loops st' w' ->
                    worker_waiting h st'.
Proof.
  intros [Harmed Hlen]. unfold worker_waiting.
  destruct s as [| event |]; cbn [iteration].
  - destruct (0 <? _);
      [destruct (reportEventsToUmami _ _ _ _) as [[] ?] |];
      split; try discriminate.
  - rewrite length_app, Nat2Z.inj_add.
    change (Z.of_nat (length [envelope event])) with 1.
    destruct (Z.leb_spec (batchSize h) (Z.of_nat (length (batch st)) + 1)).
    + destruct (reportEventsToUmami _ _ _ _) as [[] ?];
        split; try discriminate.
      intros st' w' [= <- _]. cbn. split; [reflexivity | lia].
    + split; [discriminate |]. intros st' w' [= <- _].
      cbn [batch timeout]. rewrite length_app, Nat2Z.inj_add.
      change (Z.of_nat (length [envelope event])) with 1.
      split; [exact Harmed | lia].
  - rewrite Harmed.
    destruct (0 <? _);
      [destruct (reportEventsToUmami _ _ _ _) as [[] ?] |];
      split; try discriminate;
      intros st' w' [= <- _]; cbn; split; try reflexivity; lia.
Qed.

Lemma feederLoop_waiting net h sel : forall st w,
  worker_waiting h st ->
  feederLoop net h sel st w <> Stuck
  /\ forall st' w', feederLoop net h sel st w = Blocked st' w' ->
                    worker_waiting h st'.
Proof.
  induction sel as [| s rest IH]; intros st w Hinv; cbn [feederLoop].
  - split; [discriminate |]. intros st' w' [= <- _]. exact Hinv.
  - destruct (iteration_waiting net h st s w Hinv) as (Hready & Hnext).
    destruct (iteration net h st s w) as [st1 w1 | err w1 | v w1 |];
      [| split; discriminate | split; discriminate | contradiction].
    apply IH. apply (Hnext st1 w1). reflexivity.
Qed.

Lemma worker_waiting_initially h :
  worker_waiting h {| batch := []; timeout := NewTimer (batchMaxWait h) |}.
Proof. split; [reflexivity | cbn; lia]. Qed.

(** Whenever the worker waits, its timer is armed, so that a batch never
    waits for ever, and its batch is shorter than the batch size: the
    worker holds at most [batchSize - 1] events between two iterations,
    and none at all for a batch size below two.  No case of its [select]
    is ever taken that was not ready. *)
Theorem worker_waits_with_armed_timer net h sel w :
  umamiEventFeeder net h sel w <> Stuck
  /\ forall st w',
       umamiEventFeeder net h sel w = Blocked st w' ->
       armed (timeout st) = true
       /\ Z.of_nat (length (batch st)) < Z.max 1 (batchSize h).
Proof.
  unfold umamiEventFeeder.
  destruct (Runtime.makeslice_ok (batchSize h));
    [| split; [discriminate | intros st w' [=]]].
  destruct (feederLoop_waiting net h sel _ w (worker_waiting_initially h))
    as (Hstuck & Hwait).
  destruct (feederLoop _ _ _ _ _) as [| | st1 w1 |];
    split; try discriminate; try contradiction.
  intros st w' [= <- <-]. apply (Hwait st1 w1). reflexivity.
Qed.

Lemma feederLoop_cancelled net h sel1 sel2 : forall st w,
  worker_waiting h st ->
  exists rest w',
    (exists err, feederLoop net h (sel1 ++ CtxDone :: sel2) st w
                 = Done err rest w')
    \/ (exists v, feederLoop net h (sel1 ++ CtxDone :: sel2) st w
                  = Unwinding v rest w').
Proof.
  induction sel1 as [| s sel1 IH]; intros st w Hinv;
    cbn [app feederLoop].
  - cbn [iteration]. destruct (0 <? _);
      [destruct (reportEventsToUmami _ _ _ _) as [[] ?] |]; eauto 6.
  - destruct (iteration_waiting net h st s w Hinv) as (Hready & Hnext).
    destruct (iteration net h st s w) as [st1 w1 | err w1 | v w1 |];
      [| eauto 6 | eauto 6 | contradiction].
    apply IH. apply (Hnext st1 w1). reflexivity.
Qed.

(** Cancellation always ends the worker: whatever cases come before it
    and however the collector behaves (answers, errors or panics),
    [startWorker] returns once the cancellation is among the cases. *)
Theorem cancellation_ends_the_worker fuel net h sel1 sel2 w :
  exists rest w',
    startWorker (S fuel) net h (sel1 ++ CtxDone :: sel2) w
    = Some (Done tt rest w').
Proof.
  rewrite startWorker_single_round. cbn [startWorker].
  pose proof (umamiEventFeeder_returns_nil net h (sel1 ++ CtxDone :: sel2) w)
    as Hnil.
  unfold umamiEventFeeder in *.
  destruct (Runtime.makeslice_ok (batchSize h)); [| eauto].
  destruct (feederLoop_cancelled net h sel1 sel2 _ w
              (worker_waiting_initially h))
    as (rest & w' & [[err Hrun] | [v Hrun]]); rewrite Hrun in *.
  - rewrite (Hnil err rest w' eq_refl). eauto.
  - eauto.
Qed.

(** *** Nothing lost, nothing sent twice *)

Lemma reportEventsToUmami_answered net h events w :
  responsive net ->
  exists w',
    reportEventsToUmami net h events w = (Return tt, w')
    /\ requests w' = requests w ++ map (trackCall h) events.
Proof.
  intros Hnet. unfold reportEventsToUmami.
  match goal with
  | |- context [reportEvents net h events ?w1] =>
      destruct (reportEvents_answered net h events w1 Hnet) as (w' & -> & Hreq)
  end.
  exists w'. split; [reflexivity |]. rewrite Hreq, debug_requests.
  reflexivity.
Qed.

Lemma iteration_conserves net h st s w :
  responsive net ->
  match iteration net h st s w with
  | Loops st' w' =>
      s <> CtxDone
      /\ requests w' ++ map (trackCall h) (batch st')
         = requests w
           ++ map (trackCall h) (batch st ++ map envelope (events_of [s]))
  | ReturnsErr _ w' =>
      s = CtxDone
      /\ requests w' = requests w ++ map (trackCall h) (batch st)
  | Panics _ _ => False
  | NotReady => armed (timeout st) = false
  end.
Proof.
  intros Hnet. destruct s as [| event |]; cbn [iteration events_of map].
  - destruct (batch st) as [| b bs] eqn:Hb; cbn [length Z.of_nat Z.ltb].
    + change (0 <? Z.of_nat 0) with false. cbv iota. cbn [map].
      rewrite debug_requests, app_nil_r. split; reflexivity.
    + change (0 <? Z.of_nat (S (length bs))) with true. cbv iota.
      destruct (reportEventsToUmami_answered net h (b :: bs)
                  (debug h "worker shutting down (canceled)" w) Hnet)
        as (w' & -> & Hreq).
      rewrite Hreq, debug_requests. split; reflexivity.
  - destruct (batchSize h <=? _).
    + destruct (reportEventsToUmami_answered net h
                  (batch st ++ [envelope event]) w Hnet) as (w' & -> & Hreq).
      cbn [batch map]. rewrite app_nil_r, Hreq. split; [discriminate |].
      reflexivity.
    + cbn [batch]. split; [discriminate | reflexivity].
  - destruct (armed (timeout st)); [| reflexivity].
    rewrite app_nil_r.
    destruct (batch st) as [| b bs] eqn:Hb; cbn [length Z.of_nat Z.ltb].
    + change (0 <? Z.of_nat 0) with false. cbv iota. cbn [batch map].
      split; [discriminate | reflexivity].
    + change (0 <? Z.of_nat (S (length bs))) with true. cbv iota.
      destruct (reportEventsToUmami_answered net h (b :: bs) w Hnet)
        as (w' & -> & Hreq).
      cbn [batch map]. rewrite app_nil_r, Hreq. split; [discriminate |].
      reflexivity.
Qed.

Lemma feederLoop_conserves net h sel : forall st w,
  responsive net ->
  match feederLoop net h sel st w with
  | Blocked st' w' =>
      requests w' ++ map (trackCall h) (batch st')
      = requests w
        ++ map (trackCall h) (batch st ++ map envelope (events_of sel))
  | Done _ rest w' =>
      exists used,
        sel = used ++ CtxDone :: rest
        /\ requests w'
           = requests w
             ++ map (trackCall h) (batch st ++ map envelope (events_of used))
  | Unwinding _ _ _ => False
  | Stuck => True
  end.
Proof.
  induction sel as [| s rest IH]; intros st w Hnet; cbn [feederLoop].
  - cbn [events_of map]. rewrite app_nil_r. reflexivity.
  - pose proof (iteration_conserves net h st s w Hnet) as Hstep.
    destruct (iteration net h st s w) as [st1 w1 | err w1 | v w1 |];
      [| | contradiction | exact I].
    + destruct Hstep as (Hs & Hstep).
      specialize (IH st1 w1 Hnet).
      assert (Hev : forall l, events_of (s :: l) = events_of [s] ++ events_of l)
        by (intros l; destruct s; reflexivity).
      destruct (feederLoop net h rest st1 w1) as [err rest' w' | | st' w' |];
        [| contradiction | | exact I].
      * destruct IH as (used & -> & Hreq). exists (s :: used).
        split; [reflexivity |].
        rewrite Hreq, Hev, !map_app, !app_assoc.
        rewrite !map_app, !app_assoc in Hstep. rewrite Hstep. reflexivity.
      * rewrite IH, Hev, !map_app, !app_assoc.
        rewrite !map_app, !app_assoc in Hstep. rewrite Hstep. reflexivity.
    + destruct Hstep as (-> & Hreq). exists []. split; [reflexivity |].
      cbn [events_of map]. rewrite app_nil_r. exact Hreq.
Qed.

(** While the collector answers, and the batch size is one that [make]
    accepts, no event is lost and none is sent twice: at any moment the
    requests sent so far, followed by the batch the worker still holds,
    are the events it has received, in the order of their arrival; and
    when it ends on cancellation, every event received before the
    cancellation has been sent.  With a batch size that [make] refuses
    the worker ends at once: it logs the recovered panic, takes no case
    of its [select] and sends nothing. *)
Theorem worker_delivers_in_order net h sel w :
  responsive net ->
  (Runtime.makeslice_ok (batchSize h) = true ->
   (forall st w',
      umamiEventFeeder net h sel w = Blocked st w' ->
      requests w' ++ map (trackCall h) (batch st)
      = requests w ++ map (trackCall h) (map envelope (events_of sel)))
   /\ (forall err rest w',
         umamiEventFeeder net h sel w = Done err rest w' ->
         exists used,
           sel = used ++ CtxDone :: rest
           /\ requests w'
              = requests w
                ++ map (trackCall h) (map envelope (events_of used))))
  /\ (Runtime.makeslice_ok (batchSize h) = false ->
      umamiEventFeeder net h sel w
      = Done None sel
          (error h ("panic: " +:+ Runtime.makeslice_panic) w)).
Proof.
  intros Hnet. unfold umamiEventFeeder. split; intros ->; [| reflexivity].
  pose proof (feederLoop_conserves net h sel
                {| batch := []; timeout := NewTimer (batchMaxWait h) |} w Hnet)
    as Hrun.
  destruct (feederLoop _ _ _ _ _) as [err rest w1 | | st1 w1 |];
    [| contradiction | |]; split; try discriminate.
  - intros err' rest' w' [= <- <- <-]. exact Hrun.
  - intros st w' [= <- <-]. exact Hrun.
Qed.

(** *** A failing request *)

Lemma reportEvents_failure net h msg events : forall k w,
  (forall n c, (n < length (requests w) + k)%nat ->
               exists status body, net n c = Responded status body) ->
  (forall c, net (length (requests w) + k)%nat c = Failed msg) ->
  (k < length events)%nat ->
  fst (reportEvents net h events w) = Return tt
  /\ requests (snd (reportEvents net h events w))
     = requests w ++ map (trackCall h) (firstn (S k) events)
  /\ errors_of (stdout (snd (reportEvents net h events w)))
     = errors_of (stdout w)
       ++ [{| level := ERR; middlewareName := name h;
              message := "failed to send tracking: " +:+ msg |}].
Proof.
  induction events as [| value events IH]; intros k w Hbefore Hfail Hlen;
    [cbn in Hlen; lia |].
  cbn [reportEvents]. unfold sendRequest.
  destruct k as [| k].
  - rewrite Nat.add_0_r in Hfail. rewrite Hfail. cbn [fst snd].
    rewrite errors_of_error. cbn [firstn map requests record_call error print].
    repeat split.
  - destruct (Hbefore (length (requests w))
                {| call_url := host h +:+ "/api/track";
                   call_body := VEvent (Payload value) |} ltac:(lia))
      as (status & body & ->).
    match goal with
    | |- context [reportEvents net h events ?w1] =>
        assert (Hreq1 : requests w1 = requests w ++ [trackCall h value])
          by (destruct (isDebug h); rewrite ?debug_requests; reflexivity);
        assert (Herr1 : errors_of (stdout w1) = errors_of (stdout w))
          by (destruct (isDebug h); rewrite ?errors_of_debug; reflexivity);
        destruct (IH k w1) as (Hfst & Hreq & Herr)
    end.
    + intros n c Hn. apply Hbefore. rewrite Hreq1, length_app in Hn.
      cbn [length] in Hn. lia.
    + intros c. rewrite Hreq1, length_app. cbn [length].
      replace (length (requests w) + 1 + k)%nat
        with (length (requests w) + S k)%nat by lia.
      apply Hfail.
    + cbn [length] in Hlen. lia.
    + rewrite Hfst, Hreq, Herr, Hreq1, Herr1, <- app_assoc.
      repeat split.
Qed.

(** A request that fails ends the flush: the events of the batch before
    it were sent, the rest of the batch is dropped without an attempt,
    one error is logged, and the worker is not told, so that it goes on
    with an empty batch. *)
Theorem flush_stops_at_first_failure net h msg events k w :
  (forall n c, (n < length (requests w) + k)%nat ->
               exists status body, net n c = Responded status body) ->
  (forall c, net (length (requests w) + k)%nat c = Failed msg) ->
  (k < length events)%nat ->
  fst (reportEventsToUmami net h events w) = Return tt
  /\ requests (snd (reportEventsToUmami net h events w))
     = requests w ++ map (trackCall h) (firstn (S k) events)
  /\ errors_of (stdout (snd (reportEventsToUmami net h events w)))
     = errors_of (stdout w)
       ++ [{| level := ERR; middlewareName := name h;
              message := "failed to send tracking: " +:+ msg |}].
Proof.
  intros Hbefore Hfail Hlen. unfold reportEventsToUmami.
  match goal with
  | |- context [reportEvents net h events ?w1] =>
      destruct (reportEvents_failure net h msg events k w1)
        as (Hfst & Hreq & Herr);
      rewrite ?debug_requests; try assumption
  end.
  rewrite Hfst, Hreq, Herr, debug_requests, errors_of_debug. repeat split.
Qed.

End Runs.

Lemma worker_waits_with_armed_timer_witness :
  let st := {| batch := [envelope sampleEvent];
               timeout := NewTimer Duration.Second |} in
  armed (timeout st) = true
  /\ Z.of_nat (length (batch st)) < Z.max 1 (batchSize sampleFeeder).
Proof.
  intros st.
  destruct (worker_waits_with_armed_timer healthy sampleFeeder
              [QueueEvent sampleEvent; TimeoutC; QueueEvent sampleEvent]
              world0) as (_ & Hwait).
  apply (Hwait st {| stdout := [];
                     requests := [trackCall sampleFeeder
                                    (envelope sampleEvent)];
                     afters := []; handed := [] |}).
  reflexivity.
Defined.

Lemma healthy_responsive : responsive healthy.
Proof. intros n c. exists "200 OK", "ok". reflexivity. Qed.

Lemma worker_delivers_in_order_witness :
  (exists used,
     [QueueEvent sampleEvent; TimeoutC; QueueEvent sampleEvent; CtxDone;
      QueueEvent sampleEvent]
     = used ++ [CtxDone; QueueEvent sampleEvent]
     /\ repeat (trackCall sampleFeeder (envelope sampleEvent)) 2
        = map (trackCall sampleFeeder) (map envelope (events_of used)))
  /\ umamiEventFeeder healthy negativeBatchFeeder
       [QueueEvent sampleEvent; CtxDone] world0
     = Done None [QueueEvent sampleEvent; CtxDone]
         (error negativeBatchFeeder
            "panic: runtime error: makeslice: cap out of range" world0).
Proof.
  split.
  - destruct (worker_delivers_in_order healthy sampleFeeder
                [QueueEvent sampleEvent; TimeoutC; QueueEvent sampleEvent;
                 CtxDone; QueueEvent sampleEvent] world0 healthy_responsive)
      as (Hok & _).
    destruct (Hok eq_refl) as (_ & Hdone).
    destruct (Hdone None [QueueEvent sampleEvent]
                {| stdout := [];
                   requests :=
                     repeat (trackCall sampleFeeder (envelope sampleEvent)) 2;
                   afters := []; handed := [] |} eq_refl)
      as (used & Hsplit & Hreq).
    exists used. split; [exact Hsplit | exact Hreq].
  - destruct (worker_delivers_in_order healthy negativeBatchFeeder
                [QueueEvent sampleEvent; CtxDone] world0 healthy_responsive)
      as (_ & Hbad).
    apply Hbad. reflexivity.
Defined.

Lemma flush_stops_at_first_failure_witness :
  requests (snd (reportEventsToUmami failsThird sampleFeeder
                   (repeat (envelope sampleEvent) 5) world0))
  = repeat (trackCall sampleFeeder (envelope sampleEvent)) 3
  /\ errors_of (stdout (snd (reportEventsToUmami failsThird sampleFeeder
                               (repeat (envelope sampleEvent) 5) world0)))
     = [{| level := ERR; middlewareName := "rybbit";
           message := "failed to send tracking: timeout" |}].
Proof.
  destruct (flush_stops_at_first_failure failsThird sampleFeeder "timeout"
              (repeat (envelope sampleEvent) 5) 2 world0)
    as (_ & Hreq & Herr).
  - intros n c Hn. exists "200 OK", "ok". unfold failsThird.
    destruct (Nat.eqb_spec n 2) as [-> | _]; [cbn in Hn; lia | reflexivity].
  - intros c. reflexivity.
  - cbn. lia.
  - split; [exact Hreq | exact Herr].
Defined.

(** ** The wire format of an event *)

Section Wire.

Context `{NetIP} `{Regex} `{Helpers}.

(** The body of a page view that [submitToFeed] makes always carries the
    members api_key, site_id, type (with the value "pageview") and
    pathname, in this order, and never a member event_name or
    properties. *)
Theorem page_view_json_members h req hostname websiteId :
  exists optional,
    marshalRybbitEvent (newEvent h req hostname websiteId)
    = JObject ([("api_key", json_string (apiKey h));
                ("site_id", json_string websiteId);
                ("type", JString "pageview");
                ("pathname", json_string (URL_Path req))] ++ optional)
    /\ Forall (fun kv => In (fst kv)
                 ["hostname"; "ip_address"; "user_agent"; "language";
                  "referrer"]) optional.
Proof.
  unfold marshalRybbitEvent, newEvent, field.
  cbn [APIKey SiteID Type_ Pathname Hostname IP UserAgent Language EventName
       Referrer Properties app].
  eexists. split; [reflexivity |].
  change (omitempty "event_name" "") with (@nil (string * json)).
  change (omitempty "properties" "") with (@nil (string * json)).
  rewrite !Forall_app. unfold omitempty.
  repeat split;
    match goal with
    | |- Forall _ (if ?b then _ else _) =>
        destruct b; repeat constructor; cbn; tauto
    | |- Forall _ [] => constructor
    end.
Qed.

End Wire.
